(** * Skygear JS SDK: the authenticated request pipeline of [BaseAPIClient]

    A shallow embedding of [packages/skygear-core/src/client.ts]:
    endpoint derivation, header preparation, the stale-token retry of
    [fetch], the envelope decoding of [request] and the payload shaping of
    the auth-flow operations.

    JavaScript strings are sequences of UTF-16 code units, JavaScript
    objects are insertion-ordered property lists, [Headers] are finite
    maps, and an [async] method is a computation over the mutable client
    state and the outside world that either resolves or rejects and that
    records the capabilities it invokes. *)

From Stdlib Require Import ZArith NArith List String Ascii Bool Lia.
From Stdlib Require Import Floats.SpecFloat.
From stdpp Require Import base option list gmap.

Set Default Proof Using "Type".
Set Warnings "-register-all".
Open Scope N_scope.

(* ===================================================================== *)
(** ** JavaScript strings *)
(* ===================================================================== *)

(** A string is its list of UTF-16 code units. *)
Definition jsstring : Type := list N.

(** The code units of an ASCII literal. *)
Definition lit (s : string) : jsstring :=
  map N_of_ascii (list_ascii_of_string s).

Definition jsstring_eqb (a b : jsstring) : bool := bool_decide (a = b).

(** [s.startsWith(p)], returning the remainder. *)
Fixpoint strip_prefix (p s : jsstring) : option jsstring :=
  match p, s with
  | [], _ => Some s
  | _ :: _, [] => None
  | a :: p', b :: s' => if N.eqb a b then strip_prefix p' s' else None
  end.

(* ===================================================================== *)
(** ** JavaScript values *)
(* ===================================================================== *)

(** Numbers are IEEE 754 doubles. *)
Inductive JSValue : Type :=
| JUndefined
| JNull
| JBool (b : bool)
| JNumber (x : spec_float)
| JString (s : jsstring)
| JArray (elems : list JSValue)
| JObject (props : list (jsstring * JSValue)).

(** The own properties of an object in the order of [Object.keys], each
    name once. *)
Definition JSObject : Type := list (jsstring * JSValue).

(** The double nearest to an integer ([prec = 53], [emax = 1024]). *)
Definition number_of_Z (z : Z) : spec_float :=
  binary_normalize 53 1024 z 0 false.

(** [ToBoolean]. *)
Definition truthy (v : JSValue) : bool :=
  match v with
  | JUndefined | JNull => false
  | JBool b => b
  | JNumber (S754_zero _) | JNumber S754_nan => false
  | JNumber _ => true
  | JString s => negb (jsstring_eqb s [])
  | JArray _ | JObject _ => true
  end.

(** Own-property lookup in a property list. *)
Fixpoint get_own {V : Type} (k : jsstring) (o : list (jsstring * V)) : option V :=
  match o with
  | [] => None
  | (k', v) :: o' => if jsstring_eqb k k' then Some v else get_own k o'
  end.

(** [Object.keys(o)]. *)
Definition Object_keys {V : Type} (o : list (jsstring * V)) : list jsstring :=
  map fst o.

(** [o[k] = v]: an existing property keeps its place, a new one is added
    last. *)
Fixpoint set_prop {V : Type} (k : jsstring) (v : V) (o : list (jsstring * V))
  : list (jsstring * V) :=
  match o with
  | [] => [(k, v)]
  | (k', v') :: o' =>
      if jsstring_eqb k k' then (k, v) :: o' else (k', v') :: set_prop k v o'
  end.

(* ===================================================================== *)
(** ** Errors and promise outcomes *)
(* ===================================================================== *)

(** The exceptions of the module: [new Error(message)], the [TypeError] of
    a property read on [null] or [undefined], and
    [new SkygearError(message, name, reason, info)]. *)
Inductive JSError : Type :=
| Error (message : jsstring)
| TypeError (message : jsstring)
| SkygearError (message name reason : jsstring) (info : option JSValue).

(** A settled promise, or the result of a call that may throw. *)
Inductive Outcome (A : Type) : Type :=
| Resolved (a : A)
| Rejected (e : JSError).
Arguments Resolved {A} a.
Arguments Rejected {A} e.

(* ===================================================================== *)
(** ** [String.prototype.replace] with a replacement template *)
(* ===================================================================== *)

Definition is_digit (c : N) : option nat :=
  if (48 <=? c) && (c <=? 57) then Some (N.to_nat (c - 48)) else None.

Section GetSubstitution.
(** The matched substring, the text before and after the match, and the
    capture groups, none of them named. *)
Variables (matched before after : jsstring) (captures : list jsstring).

(** The text a reference [$n] stands for: the capture when
    [1 <= n <= m], the reference itself otherwise. *)
Definition capture_or (n : nat) (ref : jsstring) : jsstring :=
  match n with
  | O => ref
  | S i => match nth_error captures i with
           | Some c => c
           | None => ref
           end
  end.

(** [GetSubstitution]: [$$], [$&], [$`], [$'], [$n] and [$nn]; a
    two-digit reference beyond the number of groups is read as a
    one-digit reference followed by a digit; [$<] is literal without
    named groups. *)
Fixpoint GetSubstitution (template : jsstring) : jsstring :=
  match template with
  | [] => []
  | c :: t1 =>
      if negb (c =? 36) then c :: GetSubstitution t1 else
      match t1 with
      | [] => [c]
      | d :: t2 =>
          if d =? 36 then 36 :: GetSubstitution t2
          else if d =? 96 then before ++ GetSubstitution t2
          else if d =? 38 then matched ++ GetSubstitution t2
          else if d =? 39 then after ++ GetSubstitution t2
          else
            match is_digit d with
            | None => c :: GetSubstitution t1
            | Some n1 =>
                match t2 with
                | [] => capture_or n1 [c; d] ++ GetSubstitution t2
                | e :: t3 =>
                    match is_digit e with
                    | None => capture_or n1 [c; d] ++ GetSubstitution t2
                    | Some n2 =>
                        if Nat.ltb (length captures) (10 * n1 + n2)%nat
                        then capture_or n1 [c; d] ++ GetSubstitution t2
                        else capture_or (10 * n1 + n2)%nat [c; d; e]
                               ++ GetSubstitution t3
                    end
                end
            end
      end
  end.
End GetSubstitution.

(** [.] of a regular expression without the [s] flag: any code unit but a
    line terminator (LF, CR, U+2028, U+2029). *)
Definition is_line_terminator (c : N) : bool :=
  (c =? 10) || (c =? 13) || (c =? 8232) || (c =? 8233).

(** The alternatives of the first group of the endpoint pattern (an
    anchored scheme prefix, then a second group taking any run of [.] up to
    the end anchor), in the order they are tried. *)
Definition endpoint_prefixes : list jsstring :=
  [lit "http://"; lit "https://"; lit "//"].

(** One attempt of the pattern at index 0: an alternative matches the
    start, and the second group must take all that follows. *)
Fixpoint match_endpoint_with (alts : list jsstring) (s : jsstring)
  : option (jsstring * jsstring) :=
  match alts with
  | [] => None
  | p :: alts' =>
      match strip_prefix p s with
      | Some rest =>
          if forallb (fun c => negb (is_line_terminator c)) rest
          then Some (p, rest)
          else match_endpoint_with alts' s
      | None => match_endpoint_with alts' s
      end
  end.

Definition match_endpoint (s : jsstring) : option (jsstring * jsstring) :=
  match_endpoint_with endpoint_prefixes s.

(** [s.replace(pattern, template)] for the endpoint pattern.  The
    pattern is anchored at both ends, so a match is the whole string and
    the global flag finds no second one. *)
Definition replace_endpoint (s template : jsstring) : jsstring :=
  match match_endpoint s with
  | Some (p, rest) => GetSubstitution s [] [] [p; rest] template
  | None => s
  end.

(** [_gearEndpoint(appEndpoint, gearSubdomain)]. *)
Definition _gearEndpoint (appEndpoint gearSubdomain : jsstring)
  : Outcome jsstring :=
  let gearEndpoint :=
    replace_endpoint appEndpoint
      (lit "$1" ++ gearSubdomain ++ lit "." ++ lit "$2") in
  if jsstring_eqb gearEndpoint appEndpoint
  then Rejected (Error (lit "invalid app endpoint"))
  else Resolved gearEndpoint.

(** [_removeTrailingSlash(s)]: the pattern is a run of slashes up to the
    end of the string; its leftmost match starts the trailing run, which
    is replaced by nothing. *)
Fixpoint _removeTrailingSlash (s : jsstring) : jsstring :=
  match s with
  | [] => []
  | c :: s' =>
      if forallb (fun c => c =? 47) s then []
      else c :: _removeTrailingSlash s'
  end.

(** A gear label without a replacement pattern, and a rest of an endpoint
    that the second group of the pattern can take. *)
Definition no_dollar (s : jsstring) : Prop := Forall (fun c => c ≠ 36) s.

Definition one_line (s : jsstring) : Prop :=
  forallb (fun c => negb (is_line_terminator c)) s = true.

(* ===================================================================== *)
(** ** Requests and responses of the injected transport *)
(* ===================================================================== *)

Inductive Method : Type := GET | POST | DELETE.

(** A request body [JSON.stringify(json)], kept as the object it writes so
    that the fields of an outgoing payload can be read back. *)
Variant Body : Type := JSONText (json : JSObject).

Record RequestInit : Type := {
  init_method : Method;
  init_headers : gmap jsstring jsstring;
  init_mode : jsstring;
  init_credentials : jsstring;
  init_body : option Body;
}.

Record Request : Type := {
  req_url : jsstring;
  req_method : Method;
  req_headers : gmap jsstring jsstring;
  req_mode : jsstring;
  req_credentials : jsstring;
  req_body : option Body;
}.

(** The injected request class is the platform's [Request]. *)
Variant RequestClass : Type := PlatformRequest.

(** [new this.requestClass(url, init)], with the platform's defaults when
    [init] is left out. *)
Definition Request_new (cls : RequestClass) (url : jsstring)
    (init : option RequestInit) : Request :=
  match init with
  | Some i =>
      {| req_url := url; req_method := init_method i;
         req_headers := init_headers i; req_mode := init_mode i;
         req_credentials := init_credentials i; req_body := init_body i |}
  | None =>
      {| req_url := url; req_method := GET; req_headers := ∅;
         req_mode := lit "cors"; req_credentials := lit "same-origin";
         req_body := None |}
  end.

(** [request.clone()]: a copy with headers of its own. *)
Definition clone (r : Request) : Request := r.

(** [for (const key of Object.keys(headers)) r.headers.set(key, headers[key])]:
    every prepared header replaces the request's, the others stay. *)
Definition set_headers (headers : gmap jsstring jsstring) (r : Request)
  : Request :=
  {| req_url := req_url r; req_method := req_method r;
     req_headers := headers ∪ req_headers r; req_mode := req_mode r;
     req_credentials := req_credentials r; req_body := req_body r |}.

(** A response: its status, its headers, and what [response.json()]
    settles to ([None] when the body is not JSON). *)
Record Response : Type := {
  status : Z;
  resp_headers : gmap jsstring jsstring;
  resp_json : option JSValue;
}.

Definition shouldRefreshToken (r : Response) : bool :=
  let h := resp_headers r !! lit "x-skygear-try-refresh-token" in
  bool_decide (h = Some (lit "true")).

(* ===================================================================== *)
(** ** The client *)
(* ===================================================================== *)

(** Modelled from the spec: the [AuthenticationSession] type is declared in
    [types.ts]; the client reads its [token], an opaque string. *)
Record AuthenticationSession : Type := { token : jsstring }.

(** The data fields of [BaseAPIClient]. *)
Record Client : Type := {
  apiKey : jsstring;
  endpoint : jsstring;
  authEndpoint : jsstring;
  assetEndpoint : jsstring;
  _accessToken : option jsstring;
  _authenticationSession : option AuthenticationSession;
  userAgent : option jsstring;
}.

(** The initial state set by the constructor. *)
Definition new_client : Client :=
  {| apiKey := []; endpoint := []; authEndpoint := []; assetEndpoint := [];
     _accessToken := None; _authenticationSession := None;
     userAgent := None |}.

(** Assignments to the endpoint fields. *)
Definition set_endpoint (v : jsstring) (c : Client) : Client :=
  {| apiKey := apiKey c; endpoint := v;
     authEndpoint := authEndpoint c; assetEndpoint := assetEndpoint c;
     _accessToken := _accessToken c;
     _authenticationSession := _authenticationSession c;
     userAgent := userAgent c |}.

Definition set_authEndpoint (v : jsstring) (c : Client) : Client :=
  {| apiKey := apiKey c; endpoint := endpoint c;
     authEndpoint := v; assetEndpoint := assetEndpoint c;
     _accessToken := _accessToken c;
     _authenticationSession := _authenticationSession c;
     userAgent := userAgent c |}.

Definition set_assetEndpoint (v : jsstring) (c : Client) : Client :=
  {| apiKey := apiKey c; endpoint := endpoint c;
     authEndpoint := authEndpoint c; assetEndpoint := v;
     _accessToken := _accessToken c;
     _authenticationSession := _authenticationSession c;
     userAgent := userAgent c |}.

Section Pipeline.
(** Whatever lies outside the client: the network, the token store. *)
Context {World : Type}.

Record State : Type := { client : Client; world : World }.

(** The injected capabilities.  Each runs on the client and the world,
    may change both, and resolves or rejects. *)
Record Capabilities : Type := {
  fetchFunction : option (Request -> State -> Outcome Response * State);
  requestClass : option RequestClass;
  refreshTokenFunction : option (State -> Outcome bool * State);
  getExtraSessionInfo : option (State -> Outcome JSValue * State);
}.

(** What a call does that can be seen from outside: the physical
    exchanges it starts and its calls of the refresh capability.  An
    exchange that the refresh capability starts of its own is part of
    that capability's effect on the world, not of this trace. *)
Inductive Event : Type :=
| Exchange (r : Request)
| RefreshCall.

(** An [async] method: from a state to an outcome, the state it leaves
    and the events in the order they happened. *)
Definition Async (A : Type) : Type :=
  State -> Outcome A * State * list Event.

Definition outcome {A} (r : Outcome A * State * list Event) : Outcome A :=
  r.1.1.
Definition final {A} (r : Outcome A * State * list Event) : State := r.1.2.
Definition events {A} (r : Outcome A * State * list Event) : list Event :=
  r.2.

#[global] Instance Async_ret : MRet Async :=
  fun A a s => (Resolved a, s, []).

(** A run that comes after the events [t]. *)
Definition after {A} (t : list Event) (r : Outcome A * State * list Event)
  : Outcome A * State * list Event :=
  match r with (o, s, t') => (o, s, t ++ t') end.

#[global] Instance Async_bind : MBind Async :=
  fun A B f m s =>
    match m s with
    | (Resolved a, s', t) => after t (f a s')
    | (Rejected e, s', t) => (Rejected e, s', t)
    end.

Definition throw {A} (e : JSError) : Async A :=
  fun s => (Rejected e, s, []).

(** A synchronous step that may throw. *)
Definition settle {A} (o : Outcome A) : Async A :=
  fun s => (o, s, []).

Definition this : Async Client :=
  fun s => (Resolved (client s), s, []).

(** Awaiting a capability, with the event it leaves. *)
Definition await {A} (f : State -> Outcome A * State) (ev : list Event)
  : Async A :=
  fun s => match f s with (o, s') => (o, s', ev) end.

Definition is_exchange (e : Event) : bool :=
  match e with Exchange _ => true | RefreshCall => false end.
Definition is_refresh (e : Event) : bool :=
  match e with Exchange _ => false | RefreshCall => true end.

Definition exchanges (t : list Event) : nat :=
  length (List.filter is_exchange t).
Definition refreshes (t : list Event) : nat :=
  length (List.filter is_refresh t).

(** The helpers the module imports: [JSON.stringify], and
    [_encodeBase64FromString], [encodeQuery] and [decodeError] of the
    sibling modules; [decodeError()] is [decodeError JUndefined]. *)
Variable JSON_stringify : JSValue -> jsstring.
Variable _encodeBase64FromString : jsstring -> jsstring.
Variable encodeQuery : list (jsstring * jsstring) -> jsstring.
Variable decodeError : JSValue -> JSError.

Variable caps : Capabilities.

(** [prepareHeaders()].  The fields are read before the only [await]. *)
Definition prepareHeaders : Async (gmap jsstring jsstring) :=
  c ← this;
  let headers : gmap jsstring jsstring :=
    {[ lit "x-skygear-api-key" := apiKey c ]} in
  let headers :=
    match _accessToken c with
    | Some t =>
        if truthy (JString t)
        then <[ lit "authorization" := lit "bearer " ++ t ]> headers
        else headers
    | None => headers
    end in
  let headers :=
    match userAgent c with
    | Some ua => <[ lit "user-agent" := ua ]> headers
    | None => headers
    end in
  match getExtraSessionInfo caps with
  | Some supplier =>
      extraSessionInfo ← await supplier [];
      if truthy extraSessionInfo
      then mret (<[ lit "x-skygear-extra-info" :=
                     _encodeBase64FromString
                       (JSON_stringify extraSessionInfo) ]> headers)
      else mret headers
  | None => mret headers
  end.

(** [input.replace(/^\//, ...)]: one leading slash is dropped. *)
Definition drop_leading_slash (input : jsstring) : jsstring :=
  match input with
  | c :: rest => if c =? 47 then rest else input
  | [] => input
  end.

(** [const { autoRefreshToken = !!this.refreshTokenFunction } = options]:
    the default stands in only when the option is left out. *)
Definition autoRefreshToken_or_default (option : option bool) : bool :=
  match option with
  | Some b => b
  | None => bool_decide (is_Some (refreshTokenFunction caps))
  end.

(** [this.endpoint + "/" + input] without a leading slash of [input]. *)
Definition fetch_url (c : Client) (input : jsstring) : jsstring :=
  endpoint c ++ lit "/" ++ drop_leading_slash input.

(** [fetch(input, init, options)]; the last argument is the option
    [autoRefreshToken] as the caller gave it, [None] when left out.
    [input] is a string by its type, so the check of [typeof input]
    passes. *)
Definition fetch (input : jsstring) (init : option RequestInit)
    (option : option bool) : Async Response :=
  match fetchFunction caps with
  | None => throw (Error (lit "missing fetchFunction in api client"))
  | Some fetchFunction =>
  match requestClass caps with
  | None => throw (Error (lit "missing requestClass in api client"))
  | Some requestClass =>
      let autoRefreshToken := autoRefreshToken_or_default option in
      c ← this;
      let url := fetch_url c input in
      let request := Request_new requestClass url init in
      headers ← prepareHeaders;
      let request := set_headers headers request in
      response ← await (fetchFunction (clone request))
                       [Exchange (clone request)];
      if shouldRefreshToken response && autoRefreshToken then
        match refreshTokenFunction caps with
        | None =>
            throw (Error (lit "missing refreshTokenFunction in api client"))
        | Some refreshTokenFunction =>
            tokenRefreshed ← await refreshTokenFunction [RefreshCall];
            if tokenRefreshed : bool then
              let retryRequest := clone request in
              headers ← prepareHeaders;
              let retryRequest := set_headers headers retryRequest in
              await (fetchFunction retryRequest) [Exchange retryRequest]
            else mret response
        end
      else mret response
  end
  end.

(** The options of [request], [post], [get] and [del]. *)
Record RequestOptions : Type := {
  json : option JSObject;
  query : option (list (jsstring * jsstring));
  autoRefreshToken : option bool;
}.

(** [{ json: payload }]. *)
Definition with_json (payload : JSObject) : RequestOptions :=
  {| json := Some payload; query := None; autoRefreshToken := None |}.

(** [v[name]] for a name that no prototype defines: a [TypeError] on
    [null] and [undefined], the own property of an object, [undefined]
    on anything else. *)
Definition get_property (v : JSValue) (name : jsstring) : Outcome JSValue :=
  match v with
  | JUndefined | JNull =>
      Rejected (TypeError (lit "cannot read property of null or undefined"))
  | JObject props => Resolved (default JUndefined (get_own name props))
  | _ => Resolved JUndefined
  end.

(** The last lines of [request]: the decoding of the parsed body. *)
Definition decode_envelope (jsonBody : JSValue) : Outcome JSValue :=
  match get_property jsonBody (lit "result") with
  | Rejected e => Rejected e
  | Resolved result =>
      if truthy result then Resolved result
      else
        match get_property jsonBody (lit "error") with
        | Rejected e => Rejected e
        | Resolved error =>
            if truthy error then Rejected (decodeError error)
            else Rejected (decodeError JUndefined)
        end
  end.

(** What [request] makes of the final response. *)
Definition decode_response (response : Response) : Outcome JSValue :=
  match resp_json response with
  | None =>
      if (status response <? 200)%Z || (status response >=? 300)%Z
      then Rejected
             (SkygearError (lit "unexpected status code")
                (lit "InternalError") (lit "UnexpectedError")
                (Some (JObject [(lit "status_code",
                                 JNumber (number_of_Z (status response)))])))
      else Rejected
             (SkygearError (lit "failed to decode response JSON")
                (lit "InternalError") (lit "UnexpectedError") None)
  | Some jsonBody => decode_envelope jsonBody
  end.

(** The path of [request] with the encoded query. *)
Definition request_path (path : jsstring) (options : RequestOptions)
  : jsstring :=
  match query options with
  | Some q => path ++ encodeQuery q
  | None => path
  end.

(** The [init] that [request] hands to [fetch]. *)
Definition request_init (method : Method) (options : RequestOptions)
  : RequestInit :=
  let headers : gmap jsstring jsstring :=
    match json options with
    | Some _ => {[ lit "content-type" := lit "application/json" ]}
    | None => ∅
    end in
  {| init_method := method; init_headers := headers;
     init_mode := lit "cors"; init_credentials := lit "include";
     init_body := JSONText <$> json options |}.

(** [request(method, path, options)]. *)
Definition request (method : Method) (path : jsstring)
    (options : RequestOptions) : Async JSValue :=
  response ← fetch (request_path path options)
                   (Some (request_init method options))
                   (autoRefreshToken options);
  settle (decode_response response).

Definition post (path : jsstring) (options : RequestOptions)
  : Async JSValue := request POST path options.

Definition get (path : jsstring) (options : RequestOptions)
  : Async JSValue := request GET path options.

Definition del (path : jsstring) (options : RequestOptions)
  : Async JSValue := request DELETE path options.

(** [decodeAuthResponse] of the encoding module, into whatever type it
    decodes to. *)
Context {AuthResponse : Type}.
Variable decodeAuthResponse : JSValue -> Outcome AuthResponse.

Definition postAndReturnAuthResponse (path : jsstring)
    (options : RequestOptions) : Async AuthResponse :=
  response ← post path options;
  settle (decodeAuthResponse response).

(** [makePayloadWithAuthenticationSessionToken(payload)]: the spread
    copies the payload, then the token is set. *)
Definition makePayloadWithAuthenticationSessionToken (c : Client)
    (payload : JSObject) : JSObject :=
  match _authenticationSession c with
  | Some session =>
      set_prop (lit "authn_session_token") (JString (token session)) payload
  | None => payload
  end.

(** [refresh(refreshToken)]. *)
Definition refresh (refreshToken : jsstring) : Async JSValue :=
  let payload := [(lit "refresh_token", JString refreshToken)] in
  response ← post (lit "/_auth/refresh")
    {| json := Some payload; query := None;
       autoRefreshToken := Some false |};
  settle (get_property response (lit "access_token")).

(** *** Login identifiers *)

(** [extractSingleKeyValue(o, errorMessage)]. *)
Definition extractSingleKeyValue (o : JSObject) (errorMessage : jsstring)
  : Outcome (jsstring * JSValue) :=
  let keys := Object_keys o in
  if negb (Nat.eqb (length keys) 1) then Rejected (Error errorMessage)
  else
    let key0 := hd [] keys in
    Resolved (key0, default JUndefined (get_own key0 o)).

(** [{ key, value }]. *)
Definition key_value (kv : jsstring * JSValue) : JSValue :=
  JObject [(lit "key", JString kv.1); (lit "value", kv.2)].

(** [loginIDs.map(f)] for an [f] that may throw: the first exception
    ends the loop. *)
Fixpoint map_throwing {A B} (f : A -> Outcome B) (l : list A)
  : Outcome (list B) :=
  match l with
  | [] => Resolved []
  | x :: l' =>
      match f x with
      | Rejected e => Rejected e
      | Resolved y =>
          match map_throwing f l' with
          | Rejected e => Rejected e
          | Resolved ys => Resolved (y :: ys)
          end
      end
  end.

Definition addLoginID (loginIDs : list JSObject) : Async JSValue :=
  mappedLoginIDs ← settle
    (map_throwing
       (fun loginID =>
          match extractSingleKeyValue loginID
                  (lit "must provide exactly one login ID") with
          | Resolved kv => Resolved (key_value kv)
          | Rejected e => Rejected e
          end) loginIDs);
  post (lit "/_auth/login_id/add")
    (with_json [(lit "login_ids", JArray mappedLoginIDs)]).

Definition removeLoginID (loginID : JSObject) : Async JSValue :=
  kv ← settle (extractSingleKeyValue loginID
                 (lit "must provide exactly one login ID"));
  post (lit "/_auth/login_id/remove")
    (with_json [(lit "key", JString kv.1); (lit "value", kv.2)]).

Definition updateLoginID (oldLoginID newLoginID : JSObject)
  : Async AuthResponse :=
  old ← settle (extractSingleKeyValue oldLoginID
                  (lit "must provide exactly one old login ID"));
  new ← settle (extractSingleKeyValue newLoginID
                  (lit "must provide exactly one new login ID"));
  postAndReturnAuthResponse (lit "/_auth/login_id/update")
    (with_json [(lit "old_login_id", key_value old);
                (lit "new_login_id", key_value new)]).

(** *** Multi-factor authentication *)

(** [options.name] on an options object. *)
Definition field (options : JSObject) (name : string) : JSValue :=
  default JUndefined (get_own (lit name) options).

(** An optional string argument. *)
Definition optional (s : option jsstring) : JSValue :=
  match s with Some s => JString s | None => JUndefined end.

(** [response.name] on a decoded result, which is truthy. *)
Definition result_field (response : JSValue) (name : string) : JSValue :=
  match get_property response (lit name) with
  | Resolved v => v
  | Rejected _ => JUndefined
  end.

Definition listRecoveryCode : Async JSValue :=
  response ← post (lit "/_auth/mfa/recovery_code/list") (with_json []);
  mret (result_field response "recovery_codes").

Definition regenerateRecoveryCode : Async JSValue :=
  response ← post (lit "/_auth/mfa/recovery_code/regenerate") (with_json []);
  mret (result_field response "recovery_codes").

Definition authenticateWithRecoveryCode (code : jsstring)
  : Async AuthResponse :=
  c ← this;
  let payload :=
    makePayloadWithAuthenticationSessionToken c
      [(lit "code", JString code)] in
  postAndReturnAuthResponse (lit "/_auth/mfa/recovery_code/authenticate")
    (with_json payload).

(** [decodeAuthenticator] of the encoding module. *)
Context {Authenticator : Type}.
Variable decodeAuthenticator : JSValue -> Outcome Authenticator.

Definition getAuthenticators : Async (list Authenticator) :=
  c ← this;
  let payload := makePayloadWithAuthenticationSessionToken c [] in
  response ← post (lit "/_auth/mfa/authenticator/list") (with_json payload);
  match result_field response "authenticators" with
  | JArray l => settle (map_throwing decodeAuthenticator l)
  | _ => throw (TypeError (lit "map is not a function"))
  end.

Definition deleteAuthenticator (id : jsstring) : Async unit :=
  _ ← post (lit "/_auth/mfa/authenticator/delete")
        (with_json [(lit "authenticator_id", JString id)]);
  mret tt.

Definition createNewTOTP (options : JSObject) : Async JSValue :=
  c ← this;
  let payload :=
    makePayloadWithAuthenticationSessionToken c
      [(lit "display_name", field options "displayName");
       (lit "issuer", field options "issuer");
       (lit "account_name", field options "accountName")] in
  response ← post (lit "/_auth/mfa/totp/new") (with_json payload);
  mret (JObject
          [(lit "authenticatorID", result_field response "authenticator_id");
           (lit "authenticatorType",
            result_field response "authenticator_type");
           (lit "secret", result_field response "secret");
           (lit "otpauthURI", result_field response "otpauth_uri");
           (lit "qrCodeImageURI",
            result_field response "qr_code_image_uri")]).

Definition activateTOTP (otp : jsstring) : Async JSValue :=
  c ← this;
  let payload :=
    makePayloadWithAuthenticationSessionToken c
      [(lit "otp", JString otp)] in
  response ← post (lit "/_auth/mfa/totp/activate") (with_json payload);
  mret (JObject
          [(lit "recoveryCodes", result_field response "recovery_codes")]).

Definition authenticateWithTOTP (options : JSObject) : Async AuthResponse :=
  c ← this;
  let payload :=
    makePayloadWithAuthenticationSessionToken c
      [(lit "request_bearer_token",
        field options "skipMFAForCurrentDevice");
       (lit "otp", field options "otp")] in
  postAndReturnAuthResponse (lit "/_auth/mfa/totp/authenticate")
    (with_json payload).

Definition createNewOOB (options : JSObject) : Async JSValue :=
  c ← this;
  let payload :=
    makePayloadWithAuthenticationSessionToken c
      [(lit "channel", field options "channel");
       (lit "phone", field options "phone");
       (lit "email", field options "email")] in
  response ← post (lit "/_auth/mfa/oob/new") (with_json payload);
  mret (JObject
          [(lit "authenticatorID", result_field response "authenticator_id");
           (lit "authenticatorType",
            result_field response "authenticator_type");
           (lit "channel", result_field response "channel")]).

Definition activateOOB (code : jsstring) : Async JSValue :=
  c ← this;
  let payload :=
    makePayloadWithAuthenticationSessionToken c
      [(lit "code", JString code)] in
  response ← post (lit "/_auth/mfa/oob/activate") (with_json payload);
  mret (JObject
          [(lit "recoveryCodes", result_field response "recovery_codes")]).

Definition triggerOOB (authenticatorID : option jsstring) : Async unit :=
  c ← this;
  let payload :=
    makePayloadWithAuthenticationSessionToken c
      [(lit "authenticator_id", optional authenticatorID)] in
  _ ← post (lit "/_auth/mfa/oob/trigger") (with_json payload);
  mret tt.

Definition authenticateWithOOB (options : JSObject) : Async AuthResponse :=
  c ← this;
  let payload :=
    makePayloadWithAuthenticationSessionToken c
      [(lit "request_bearer_token",
        field options "skipMFAForCurrentDevice");
       (lit "code", field options "code")] in
  postAndReturnAuthResponse (lit "/_auth/mfa/oob/authenticate")
    (with_json payload).

Definition authenticateWithBearerToken (bearerToken : option jsstring)
  : Async AuthResponse :=
  c ← this;
  let payload :=
    makePayloadWithAuthenticationSessionToken c
      [(lit "bearer_token", optional bearerToken)] in
  postAndReturnAuthResponse (lit "/_auth/mfa/bearer_token/authenticate")
    (with_json payload).

(** *** Endpoints *)

(** An assignment to a field of [this]. *)
Definition assign (f : Client -> Client) : Async unit :=
  fun s => (Resolved tt, {| client := f (client s); world := world s |}, []).

(** [x ? x : fallback] for an optional string argument. *)
Definition given_or (x : option jsstring) (fallback : Outcome jsstring)
  : Outcome jsstring :=
  match x with
  | Some v => if truthy (JString v) then Resolved v else fallback
  | None => fallback
  end.

(** [setEndpoint(appEndpoint, authEndpoint, assetEndpoint)]: three
    assignments in a row, each right-hand side computed just before. *)
Definition setEndpoint (appEndpoint : jsstring)
    (authEndpoint assetEndpoint : option jsstring) : Async unit :=
  _ ← assign (set_endpoint (_removeTrailingSlash appEndpoint));
  c ← this;
  auth ← settle (given_or authEndpoint
                   (_gearEndpoint (endpoint c) (lit "accounts")));
  _ ← assign (set_authEndpoint auth);
  c ← this;
  asset ← settle (given_or assetEndpoint
                    (_gearEndpoint (endpoint c) (lit "assets")));
  assign (set_assetEndpoint asset).

(** *** The plain transport of the OIDC client *)

(** [_fetch(url, init)]. *)
Definition _fetch (url : jsstring) (init : option RequestInit)
  : Async Response :=
  match fetchFunction caps with
  | None => throw (Error (lit "missing fetchFunction in oidc api client"))
  | Some fetchFunction =>
  match requestClass caps with
  | None => throw (Error (lit "missing requestClass in oidc api client"))
  | Some requestClass =>
      let request := Request_new requestClass url init in
      await (fetchFunction request) [Exchange request]
  end
  end.

(** What [response.json()] rejects with when the body is not JSON. *)
Variable json_rejection : Response -> JSError.

(** [_fetchJSON(url, init)]. *)
Definition _fetchJSON (url : jsstring) (init : option RequestInit)
  : Async JSValue :=
  resp ← _fetch url init;
  match resp_json resp with
  | Some v => mret v
  | None => throw (json_rejection resp)
  end.

(** [_fetchOIDCConfiguration()]. *)
Definition _fetchOIDCConfiguration : Async JSValue :=
  c ← this;
  _fetchJSON (authEndpoint c ++ lit "/.well-known/openid-configuration") None.

(** *** Signup and login *)

(** The loop over [Object.keys(obj)] that pushes [{ key, value }]. *)
Definition login_id_pairs (obj : JSObject) : list JSValue :=
  map (fun key => key_value (key, default JUndefined (get_own key obj)))
      (Object_keys obj).

(** [options && options.name] for an optional options object. *)
Definition optional_field (options : option JSObject) (name : string)
  : JSValue :=
  match options with
  | Some o => field o name
  | None => JUndefined
  end.

(** [signup(loginIDs, password, options)]; [loginIDs] is an array of
    objects or one object. *)
Definition signup (loginIDs : list JSObject + JSObject) (password : jsstring)
    (options : option JSObject) : Async AuthResponse :=
  let ids :=
    match loginIDs with
    | inl objs => concat (map login_id_pairs objs)
    | inr obj => login_id_pairs obj
    end in
  let payload :=
    [(lit "password", JString password);
     (lit "login_ids", JArray ids);
     (lit "metadata", optional_field options "metadata")] in
  postAndReturnAuthResponse (lit "/_auth/signup") (with_json payload).

(** [login(loginID, password, options)]. *)
Definition login (loginID password : jsstring) (options : option JSObject)
  : Async AuthResponse :=
  let payload :=
    [(lit "password", JString password);
     (lit "login_id", JString loginID);
     (lit "login_id_key", optional_field options "loginIDKey")] in
  postAndReturnAuthResponse (lit "/_auth/login") (with_json payload).

(** [logout()]. *)
Definition logout : Async unit :=
  _ ← post (lit "/_auth/logout") (with_json []);
  mret tt.

(** [me()]. *)
Definition me : Async AuthResponse :=
  postAndReturnAuthResponse (lit "/_auth/me") (with_json []).

(** *** OAuth *)

(** [encodeURIComponent], which throws on a lone surrogate, and
    [window.location.href] where there is a [window]. *)
Variable encodeURIComponent : JSValue -> Outcome jsstring.
Variable window_location_href : World -> option jsstring.

(** [typeof window !== "undefined" && window.location.href]. *)
Definition window_href : Async (option jsstring) :=
  fun s => (Resolved (window_location_href (world s)), s, []).

(** [oauthAuthorizationURL(options)]. *)
Definition oauthAuthorizationURL (options : JSObject) : Async JSValue :=
  let providerID := field options "providerID" in
  let uxMode := field options "uxMode" in
  let onUserDuplicate := field options "onUserDuplicate" in
  let codeChallenge := field options "codeChallenge" in
  let action := field options "action" in
  encoded ← settle (encodeURIComponent providerID);
  path ← settle
    (match action with
     | JString a =>
         if jsstring_eqb a (lit "login")
         then Resolved (lit "/_auth/sso/" ++ encoded ++ lit "/login_auth_url")
         else if jsstring_eqb a (lit "link")
         then Resolved (lit "/_auth/sso/" ++ encoded ++ lit "/link_auth_url")
         else Rejected (Error (lit "unreachable"))
     | _ => Rejected (Error (lit "unreachable"))
     end);
  href ← window_href;
  let given :=
    match get_own (lit "callbackURL") options with
    | Some v => v
    | None => JBool false
    end in
  let ambient :=
    match href with
    | Some h => JString h
    | None => JBool false
    end in
  let callbackURL := if truthy given then given else ambient in
  if negb (truthy callbackURL)
  then throw (Error (lit "callbackURL is required"))
  else
    let payload :=
      [(lit "callback_url", callbackURL);
       (lit "ux_mode", uxMode);
       (lit "on_user_duplicate", onUserDuplicate);
       (lit "code_challenge", codeChallenge)] in
    post path (with_json payload).

(** [oauthHandler(options)], the options being four strings. *)
Definition oauthHandler (providerID code scope state : jsstring)
  : Async JSValue :=
  encoded ← settle (encodeURIComponent (JString providerID));
  let path := lit "/_auth/sso/" ++ encoded ++ lit "/auth_handler" in
  get path
    {| json := None;
       query := Some [(lit "code", code); (lit "scope", scope);
                      (lit "state", state)];
       autoRefreshToken := None |}.

(** *** Invariants of the state *)

(** A computation keeps [P] when every run from a state in [P] ends in
    [P], whether it resolves or rejects. *)
Definition preserves {A} (P : State -> Prop) (m : Async A) : Prop :=
  forall s, P s -> P (final (m s)).

(** The configured capabilities keep [P]. *)
Definition capabilities_preserve (P : State -> Prop) : Prop :=
  (forall f, fetchFunction caps = Some f -> forall q s, P s -> P (f q s).2)
  /\ (forall f, refreshTokenFunction caps = Some f ->
       forall s, P s -> P (f s).2)
  /\ (forall f, getExtraSessionInfo caps = Some f ->
       forall s, P s -> P (f s).2).

(** *** What an operation sends *)

(** The exchanges of a call carry a payload whose session-token field
    is the token of the session held when the call is made, and no such
    field when none is held; and the call does start an exchange once
    transport and request class are configured and the headers are
    prepared. *)
Definition threads_session_token {A} (m : Async A) s : Prop :=
  (forall q, In (Exchange q) (events (m s)) ->
     exists payload,
       req_body q = Some (JSONText payload)
       /\ get_own (lit "authn_session_token") payload
          = (fun session => JString (token session))
              <$> _authenticationSession (client s))
  /\ (forall h s',
        is_Some (fetchFunction caps) -> is_Some (requestClass caps) ->
        prepareHeaders s = (Resolved h, s', []) ->
        exists q rest, events (m s) = Exchange q :: rest).

(** The exchanges of a call carry a payload without the session-token
    field, whether a session is held or not. *)
Definition omits_session_token {A} (m : Async A) s : Prop :=
  (forall q, In (Exchange q) (events (m s)) ->
     exists payload,
       req_body q = Some (JSONText payload)
       /\ get_own (lit "authn_session_token") payload = None)
  /\ (forall h s',
        is_Some (fetchFunction caps) -> is_Some (requestClass caps) ->
        prepareHeaders s = (Resolved h, s', []) ->
        exists q rest, events (m s) = Exchange q :: rest).

End Pipeline.

(* ===================================================================== *)
(** ** Notions for the statements *)
(* ===================================================================== *)

(** A run of [n] slashes. *)
Definition slashes (n : nat) : jsstring := replicate n 47.

(** The path of an OAuth action, where there is one. *)
Definition oauth_path (encoded : jsstring) (action : JSValue)
  : option jsstring :=
  match action with
  | JString a =>
      if jsstring_eqb a (lit "login")
      then Some (lit "/_auth/sso/" ++ encoded ++ lit "/login_auth_url")
      else if jsstring_eqb a (lit "link")
      then Some (lit "/_auth/sso/" ++ encoded ++ lit "/link_auth_url")
      else None
  | _ => None
  end.

(** The callback URL of the options when it is there and truthy, else the
    location of the window when there is one and it is not empty. *)
Definition resolved_callback (options : JSObject) (href : option jsstring)
  : option JSValue :=
  let ambient :=
    match href with
    | Some h => if jsstring_eqb h [] then None else Some (JString h)
    | None => None
    end in
  match get_own (lit "callbackURL") options with
  | Some v => if truthy v then Some v else ambient
  | None => ambient
  end.

(* ===================================================================== *)
(** ** Test doubles for the collaborators *)
(* ===================================================================== *)

Module Scenario.
(** The world is the number of exchanges the transport has served. *)
Definition served (s : @State nat) : State :=
  {| client := client s; world := S (world s) |}.

Definition stale_response : Response :=
  {| status := 401;
     resp_headers := {[ lit "x-skygear-try-refresh-token" := lit "true" ]};
     resp_json :=
       Some (JObject
               [(lit "error",
                 JObject [(lit "name", JString (lit "NotAuthenticated"))])])
  |}.

Definition fresh_response : Response :=
  {| status := 200;
     resp_headers := ∅;
     resp_json :=
       Some (JObject
               [(lit "result",
                 JObject [(lit "user_id", JString (lit "u1"))])]) |}.

(** A body that is not JSON, behind a gateway error. *)
Definition gateway_response : Response :=
  {| status := 502; resp_headers := ∅; resp_json := None |}.

(** A transport that signals a stale token on every exchange. *)
Definition always_stale (q : Request) (s : @State nat)
  : Outcome Response * State :=
  (Resolved stale_response, served s).

(** A transport that signals a stale token on the first exchange only. *)
Definition stale_once (q : Request) (s : @State nat)
  : Outcome Response * State :=
  (Resolved (match world s with
             | O => stale_response
             | S _ => fresh_response
             end), served s).

Definition always_fresh (q : Request) (s : @State nat)
  : Outcome Response * State :=
  (Resolved fresh_response, served s).

Definition always_gateway (q : Request) (s : @State nat)
  : Outcome Response * State :=
  (Resolved gateway_response, served s).

Definition with_token (t : option jsstring) (c : Client) : Client :=
  {| apiKey := apiKey c; endpoint := endpoint c;
     authEndpoint := authEndpoint c; assetEndpoint := assetEndpoint c;
     _accessToken := t;
     _authenticationSession := _authenticationSession c;
     userAgent := userAgent c |}.

Definition with_session (a : option AuthenticationSession) (c : Client)
  : Client :=
  {| apiKey := apiKey c; endpoint := endpoint c;
     authEndpoint := authEndpoint c; assetEndpoint := assetEndpoint c;
     _accessToken := _accessToken c;
     _authenticationSession := a;
     userAgent := userAgent c |}.

(** A refresh capability that stores a token and reports [ok]. *)
Definition refresh_storing (t : option jsstring) (ok : bool)
    (s : @State nat) : Outcome bool * State :=
  (Resolved ok, {| client := with_token t (client s); world := world s |}).

(** A supplier of extra session info that works until the first exchange
    has been served and rejects afterwards. *)
Definition device_info_once (s : @State nat) : Outcome JSValue * State :=
  (match world s with
   | O => Resolved JNull
   | S _ => Rejected (Error (lit "device info unavailable"))
   end, s).

Definition capabilities
    (transport : Request -> @State nat -> Outcome Response * State)
    (refresher : option (@State nat -> Outcome bool * State))
    (supplier : option (@State nat -> Outcome JSValue * State))
  : Capabilities :=
  {| fetchFunction := Some transport;
     requestClass := Some PlatformRequest;
     refreshTokenFunction := refresher;
     getExtraSessionInfo := supplier |}.

Definition configured : Client :=
  {| apiKey := lit "key"; endpoint := lit "https://api.example.com";
     authEndpoint := lit "https://accounts.api.example.com";
     assetEndpoint := lit "https://assets.api.example.com";
     _accessToken := Some (lit "tok1");
     _authenticationSession := None;
     userAgent := None |}.

Definition start (c : Client) : @State nat := {| client := c; world := O |}.

(** Stand-ins for the imported helpers. *)
Definition stringify (v : JSValue) : jsstring := lit "{}".
Definition base64 (s : jsstring) : jsstring := s.
Definition encode_query (q : list (jsstring * jsstring)) : jsstring := [].
Definition decode_error (v : JSValue) : JSError :=
  match v with
  | JObject props =>
      match get_own (lit "name") props with
      | Some (JString name) => SkygearError [] name [] None
      | _ => Error (lit "unknown error")
      end
  | _ => Error (lit "unknown error")
  end.
Definition decode_value (v : JSValue) : Outcome JSValue := Resolved v.

(** A body that is the JSON [null], and a result with two authenticators. *)
Definition null_response : Response :=
  {| status := 200; resp_headers := ∅; resp_json := Some JNull |}.

Definition authenticators_response : Response :=
  {| status := 200;
     resp_headers := ∅;
     resp_json :=
       Some (JObject
               [(lit "result",
                 JObject [(lit "authenticators",
                           JArray [JString (lit "a1");
                                   JString (lit "a2")])])]) |}.

Definition answering (r : Response) (q : Request) (s : @State nat)
  : Outcome Response * State :=
  (Resolved r, served s).

(** A refresh capability that fails. *)
Definition failing_refresh (s : @State nat) : Outcome bool * State :=
  (Rejected (Error (lit "refresh failed")), s).

(** Capabilities without a transport. *)
Definition unconfigured : @Capabilities nat :=
  {| fetchFunction := None; requestClass := None;
     refreshTokenFunction := None; getExtraSessionInfo := None |}.

(** More stand-ins: a decoder of strings, the error of an unparsable
    body, an encoder that leaves a string as it is, a query encoder that
    shows its pairs, and the window. *)
Definition decode_string (v : JSValue) : Outcome jsstring :=
  match v with
  | JString s => Resolved s
  | _ => Rejected (Error (lit "not a string"))
  end.
Definition syntax_error (r : Response) : JSError :=
  Error (lit "unexpected token").
Definition encode_component (v : JSValue) : Outcome jsstring :=
  match v with
  | JString s => Resolved s
  | _ => Resolved (lit "undefined")
  end.
Definition query_string (q : list (jsstring * jsstring)) : jsstring :=
  lit "?" ++ concat (map (fun kv => kv.1 ++ lit "=" ++ kv.2 ++ lit "&") q).
Definition no_window (w : nat) : option jsstring := None.
Definition window_at (href : jsstring) (w : nat) : option jsstring :=
  Some href.
End Scenario.

(* ===================================================================== *)
(** * Properties *)
(* ===================================================================== *)

(** ** Endpoint derivation *)

Lemma strip_prefix_app p rest : strip_prefix p (p ++ rest) = Some rest.
Proof.
  induction p as [|a p IH]; simpl; [done|].
  by rewrite N.eqb_refl.
Qed.

Lemma strip_prefix_Some p s rest : strip_prefix p s = Some rest -> s = p ++ rest.
Proof.
  revert s; induction p as [|a p IH]; intros s; simpl.
  - by intros [= ->].
  - destruct s as [|b s]; [done|].
    destruct (N.eqb_spec a b) as [->|]; [|done].
    intros H. by rewrite (IH _ H).
Qed.

Lemma match_endpoint_with_Some alts s p rest :
  match_endpoint_with alts s = Some (p, rest) ->
  In p alts /\ s = p ++ rest /\ one_line rest.
Proof.
  induction alts as [|q alts IH]; simpl; [done|].
  destruct (strip_prefix q s) as [r|] eqn:Hq.
  - destruct (forallb _ r) eqn:Hr.
    + intros [= <- <-]. split; [by left|]. split; [|done].
      by apply strip_prefix_Some.
    + intros H. destruct (IH H) as (? & ? & ?). auto.
  - intros H. destruct (IH H) as (? & ? & ?). auto.
Qed.

Lemma match_endpoint_with_None alts s p rest :
  match_endpoint_with alts s = None ->
  In p alts -> s = p ++ rest -> ~ one_line rest.
Proof.
  induction alts as [|q alts IH]; simpl; [done|].
  intros Hm [->|Hin] ->.
  - rewrite strip_prefix_app in Hm.
    unfold one_line. destruct (forallb _ rest); [done|]. done.
  - destruct (strip_prefix q (p ++ rest)) as [r|].
    + destruct (forallb _ r); [done|]. by eapply IH.
    + by eapply IH.
Qed.

(** The three scheme prefixes exclude one another, so the prefix that
    matches is the one the string starts with. *)
Lemma match_endpoint_prefix p rest :
  In p endpoint_prefixes -> one_line rest ->
  match_endpoint (p ++ rest) = Some (p, rest).
Proof.
  unfold match_endpoint, endpoint_prefixes, one_line.
  intros [<-|[<-|[<-|[]]]] Hr; vm_compute lit; simpl; by rewrite Hr.
Qed.

Section Substitution.
Variables (matched before after : jsstring) (captures : list jsstring).

Lemma GetSubstitution_literal g t :
  no_dollar g ->
  GetSubstitution matched before after captures (g ++ t)
  = g ++ GetSubstitution matched before after captures t.
Proof.
  induction 1 as [|c g Hc _ IH]; [done|].
  simpl. destruct (N.eqb_spec c 36) as [->|_]; [done|].
  simpl. by rewrite IH.
Qed.
End Substitution.

(** The template of [_gearEndpoint] for a label without [$]. *)
Lemma gear_template_expands s p rest g :
  no_dollar g ->
  GetSubstitution s [] [] [p; rest] (lit "$1" ++ g ++ lit "." ++ lit "$2")
  = p ++ g ++ lit "." ++ rest.
Proof.
  intros Hg.
  assert (Htail : GetSubstitution s [] [] [p; rest] (g ++ lit "." ++ lit "$2")
                  = g ++ lit "." ++ rest).
  { rewrite GetSubstitution_literal by done.
    vm_compute lit. simpl. by rewrite app_nil_r. }
  change (lit "$1" ++ g ++ lit "." ++ lit "$2")
    with (36 :: 49 :: (g ++ lit "." ++ lit "$2")).
  remember (g ++ lit "." ++ lit "$2") as t eqn:Ht.
  assert (Hone : capture_or [p; rest] 1 [36; 49] ++
                 GetSubstitution s [] [] [p; rest] t
                 = p ++ g ++ lit "." ++ rest).
  { simpl. by rewrite Htail. }
  cbn [GetSubstitution]. change (negb (36 =? 36)) with false.
  change (49 =? 36) with false. change (49 =? 96) with false.
  change (49 =? 38) with false. change (49 =? 39) with false.
  change (is_digit 49) with (Some 1%nat). cbv iota.
  destruct t as [|e t3]; [done|].
  destruct (is_digit e) as [n2|] eqn:He; [|done].
  replace (Nat.ltb (length [p; rest]) (10 * 1 + n2)) with true; [done|].
  symmetry. apply Nat.ltb_lt. simpl. lia.
Qed.

Example gear_accounts :
  _gearEndpoint (lit "https://myapp.skygearapis.com") (lit "accounts")
  = Resolved (lit "https://accounts.myapp.skygearapis.com").
Proof. vm_compute. reflexivity. Qed.

Example gear_dollar :
  _gearEndpoint (lit "http://a") (lit "$$") = Resolved (lit "http://$.a").
Proof. vm_compute. reflexivity. Qed.

Example gear_newline :
  _gearEndpoint (lit "http://a" ++ [10] ++ lit "b") (lit "accounts")
  = Rejected (Error (lit "invalid app endpoint")).
Proof. vm_compute. reflexivity. Qed.

Example gear_no_scheme :
  _gearEndpoint (lit "localhost:3000") (lit "accounts")
  = Rejected (Error (lit "invalid app endpoint")).
Proof. vm_compute. reflexivity. Qed.

Example gear_digit_label :
  _gearEndpoint (lit "//host") (lit "1a") = Resolved (lit "//1a.host").
Proof. vm_compute. reflexivity. Qed.

(** C8, as amended.  [_gearEndpoint] is a function of its two arguments; it
    returns a string different from the base endpoint or throws the
    invalid-app-endpoint error, never the base endpoint itself.  For a gear
    label without a dollar sign and a base endpoint made of one of the
    three scheme prefixes and a rest without line terminator, the result
    is the label and a dot inserted right after the prefix.  When the
    base endpoint has no such decomposition, the call throws. *)
Theorem gearEndpoint_inserts_or_throws (E G : jsstring) :
  (forall E' G', E' = E -> G' = G -> _gearEndpoint E' G' = _gearEndpoint E G)
  /\ match _gearEndpoint E G with
     | Resolved s => s <> E
     | Rejected e => e = Error (lit "invalid app endpoint")
     end
  /\ (forall p rest,
        no_dollar G -> In p endpoint_prefixes -> E = p ++ rest ->
        one_line rest ->
        _gearEndpoint E G = Resolved (p ++ G ++ lit "." ++ rest)
        /\ p ++ G ++ lit "." ++ rest <> E)
  /\ ((forall p rest, In p endpoint_prefixes -> E = p ++ rest ->
                      ~ one_line rest) ->
      _gearEndpoint E G = Rejected (Error (lit "invalid app endpoint"))).
Proof.
  split; [by intros ? ? -> ->|].
  split.
  { unfold _gearEndpoint, jsstring_eqb. case_bool_decide; [done|]. done. }
  split.
  - intros p rest HG Hp -> Hrest.
    assert (Hne : p ++ G ++ lit "." ++ rest <> p ++ rest).
    { intros Heq. apply app_inv_head in Heq.
      apply (f_equal length) in Heq. rewrite !length_app in Heq.
      simpl in Heq. lia. }
    split; [|done].
    unfold _gearEndpoint, replace_endpoint.
    rewrite match_endpoint_prefix by done.
    rewrite gear_template_expands by done.
    unfold jsstring_eqb. by rewrite bool_decide_eq_false_2.
  - intros Hnone. unfold _gearEndpoint, replace_endpoint.
    destruct (match_endpoint E) as [[p rest]|] eqn:Hm.
    + apply match_endpoint_with_Some in Hm as (Hp & HE & Hr).
      by destruct (Hnone p rest Hp HE).
    + unfold jsstring_eqb. by rewrite bool_decide_eq_true_2.
Qed.

Lemma gearEndpoint_inserts_or_throws_witness :
  _gearEndpoint (lit "https://myapp.skygearapis.com") (lit "accounts")
  = Resolved (lit "https://" ++ lit "accounts" ++ lit "."
              ++ lit "myapp.skygearapis.com")
  /\ lit "https://" ++ lit "accounts" ++ lit "." ++ lit "myapp.skygearapis.com"
     <> lit "https://myapp.skygearapis.com".
Proof.
  apply (gearEndpoint_inserts_or_throws
           (lit "https://myapp.skygearapis.com") (lit "accounts")).
  - unfold no_dollar. vm_compute lit.
    repeat (constructor; [discriminate|]). constructor.
  - vm_compute. tauto.
  - reflexivity.
  - reflexivity.
Defined.

(** The claim as first stated fails for a label that holds a replacement
    pattern: the dollar pair of the label is written as one dollar sign,
    so the string returned is not the label and a dot put after the
    prefix, and the call does not throw either. *)
Lemma gearEndpoint_dollar_label_counterexample :
  ~ ((exists p rest,
        In p endpoint_prefixes /\ lit "http://a" = p ++ rest
        /\ _gearEndpoint (lit "http://a") (lit "$$")
           = Resolved (p ++ lit "$$" ++ lit "." ++ rest))
     \/ exists e, _gearEndpoint (lit "http://a") (lit "$$") = Rejected e).
Proof.
  intros [(p & rest & Hp & HE & Hres)|[e He]].
  - rewrite gear_dollar in Hres.
    destruct Hp as [<-|[<-|[<-|[]]]]; vm_compute in HE; vm_compute in Hres;
      congruence.
  - rewrite gear_dollar in He. discriminate.
Qed.

(** ** The request pipeline *)

(** *** Objects *)

Lemma jsstring_eqb_refl k : jsstring_eqb k k = true.
Proof. unfold jsstring_eqb. by rewrite bool_decide_eq_true_2. Qed.

Lemma get_own_set_prop {V} k (v : V) o : get_own k (set_prop k v o) = Some v.
Proof.
  induction o as [|[k' v'] o IH]; cbn [set_prop get_own].
  - by rewrite jsstring_eqb_refl.
  - destruct (jsstring_eqb k k') eqn:Hk; cbn [get_own].
    + by rewrite jsstring_eqb_refl.
    + by rewrite Hk.
Qed.

(** The token of a held session is in the payload; without a session the
    payload is the one given. *)
Lemma makePayload_session_token c payload :
  get_own (lit "authn_session_token")
          (makePayloadWithAuthenticationSessionToken c payload)
  = match _authenticationSession c with
    | Some session => Some (JString (token session))
    | None => get_own (lit "authn_session_token") payload
    end.
Proof.
  unfold makePayloadWithAuthenticationSessionToken.
  destruct (_authenticationSession c); [apply get_own_set_prop|done].
Qed.

Lemma single_key (o : JSObject) :
  length (Object_keys o) = 1%nat -> exists k v, o = [(k, v)].
Proof.
  destruct o as [|[k v] [|? ?]]; simpl; try done. intros _. by exists k, v.
Qed.

Lemma extractSingleKeyValue_rejects o message :
  length (Object_keys o) <> 1%nat ->
  extractSingleKeyValue o message = Rejected (Error message).
Proof.
  intros Hbad. unfold extractSingleKeyValue.
  by destruct (Nat.eqb_spec (length (Object_keys o)) 1).
Qed.

Lemma extractSingleKeyValue_single k v message :
  extractSingleKeyValue [(k, v)] message = Resolved (k, v).
Proof.
  unfold extractSingleKeyValue.
  cbn [Object_keys map fst length Nat.eqb negb hd get_own].
  by rewrite jsstring_eqb_refl.
Qed.

(** Unfolding of the pipeline's methods, by their global names. *)
Ltac unfold_operations :=
  unfold authenticateWithRecoveryCode, getAuthenticators,
    deleteAuthenticator, createNewTOTP, activateTOTP, authenticateWithTOTP,
    createNewOOB, activateOOB, triggerOOB, authenticateWithOOB,
    authenticateWithBearerToken, listRecoveryCode, regenerateRecoveryCode,
    addLoginID, removeLoginID, updateLoginID;
  unfold postAndReturnAuthResponse.

Ltac unfold_prepareHeaders := unfold prepareHeaders.
Ltac unfold_prepareHeaders_in H := unfold prepareHeaders in H.
Ltac unfold_fetch := unfold fetch.
Ltac unfold_request := unfold post, get, del; unfold request.

Section PipelineProperties.
Context {World AuthResponse Authenticator : Type}.
Variable JSON_stringify : JSValue -> jsstring.
Variable _encodeBase64FromString : jsstring -> jsstring.
Variable encodeQuery : list (jsstring * jsstring) -> jsstring.
Variable decodeError : JSValue -> JSError.
Variable decodeAuthResponse : JSValue -> Outcome AuthResponse.
Variable decodeAuthenticator : JSValue -> Outcome Authenticator.
Variable caps : @Capabilities World.

Local Abbreviation prepareHeaders :=
  (prepareHeaders JSON_stringify _encodeBase64FromString caps).
Local Abbreviation fetch :=
  (fetch JSON_stringify _encodeBase64FromString caps).
Local Abbreviation request :=
  (request JSON_stringify _encodeBase64FromString encodeQuery decodeError
     caps).
Local Abbreviation post :=
  (post JSON_stringify _encodeBase64FromString encodeQuery decodeError caps).
Local Abbreviation postAndReturnAuthResponse :=
  (postAndReturnAuthResponse JSON_stringify _encodeBase64FromString
     encodeQuery decodeError caps decodeAuthResponse).

Local Abbreviation activateTOTP :=
  (activateTOTP JSON_stringify _encodeBase64FromString encodeQuery
     decodeError caps).
Local Abbreviation activateOOB :=
  (activateOOB JSON_stringify _encodeBase64FromString encodeQuery
     decodeError caps).
Local Abbreviation triggerOOB :=
  (triggerOOB JSON_stringify _encodeBase64FromString encodeQuery
     decodeError caps).
Local Abbreviation createNewTOTP :=
  (createNewTOTP JSON_stringify _encodeBase64FromString encodeQuery
     decodeError caps).
Local Abbreviation createNewOOB :=
  (createNewOOB JSON_stringify _encodeBase64FromString encodeQuery
     decodeError caps).
Local Abbreviation getAuthenticators :=
  (getAuthenticators JSON_stringify _encodeBase64FromString encodeQuery
     decodeError caps decodeAuthenticator).
Local Abbreviation deleteAuthenticator :=
  (deleteAuthenticator JSON_stringify _encodeBase64FromString encodeQuery
     decodeError caps).
Local Abbreviation listRecoveryCode :=
  (listRecoveryCode JSON_stringify _encodeBase64FromString encodeQuery
     decodeError caps).
Local Abbreviation regenerateRecoveryCode :=
  (regenerateRecoveryCode JSON_stringify _encodeBase64FromString
     encodeQuery decodeError caps).
Local Abbreviation authenticateWithTOTP :=
  (authenticateWithTOTP JSON_stringify _encodeBase64FromString encodeQuery
     decodeError caps decodeAuthResponse).
Local Abbreviation authenticateWithOOB :=
  (authenticateWithOOB JSON_stringify _encodeBase64FromString encodeQuery
     decodeError caps decodeAuthResponse).
Local Abbreviation authenticateWithRecoveryCode :=
  (authenticateWithRecoveryCode JSON_stringify _encodeBase64FromString
     encodeQuery decodeError caps decodeAuthResponse).
Local Abbreviation authenticateWithBearerToken :=
  (authenticateWithBearerToken JSON_stringify _encodeBase64FromString
     encodeQuery decodeError caps decodeAuthResponse).
Local Abbreviation addLoginID :=
  (addLoginID JSON_stringify _encodeBase64FromString encodeQuery
     decodeError caps).
Local Abbreviation removeLoginID :=
  (removeLoginID JSON_stringify _encodeBase64FromString encodeQuery
     decodeError caps).
Local Abbreviation updateLoginID :=
  (updateLoginID JSON_stringify _encodeBase64FromString encodeQuery
     decodeError caps decodeAuthResponse).

Local Abbreviation threads_session_token :=
  (threads_session_token JSON_stringify _encodeBase64FromString caps).
Local Abbreviation omits_session_token :=
  (omits_session_token JSON_stringify _encodeBase64FromString caps).

Implicit Types (σ : @State World) (q : Request) (t : list Event).

(** *** Running a computation step by step *)

Lemma run_bind {A B} (m : Async A) (k : A -> Async B) σ :
  (m ≫= k) σ
  = match m σ with
    | (Resolved a, σ', t) => after t (k a σ')
    | (Rejected e, σ', t) => (Rejected e, σ', t)
    end.
Proof. reflexivity. Qed.

Lemma after_nil {A} (r : Outcome A * @State World * list Event) :
  after [] r = r.
Proof. by destruct r as [[o s] t]. Qed.

Lemma events_after {A} t (r : Outcome A * @State World * list Event) :
  events (after t r) = t ++ events r.
Proof. by destruct r as [[o s] t']. Qed.

Lemma run_this {B} (k : Client -> Async B) σ :
  (this ≫= k) σ = k (client σ) σ.
Proof. rewrite run_bind. unfold this. apply after_nil. Qed.

Lemma run_await {A B} (f : State -> Outcome A * State) ev
    (k : A -> Async B) σ :
  (await f ev ≫= k) σ
  = match f σ with
    | (Resolved a, σ') => after ev (k a σ')
    | (Rejected e, σ') => (Rejected e, σ', ev)
    end.
Proof.
  rewrite run_bind. unfold await. by destruct (f σ) as [[a|e] σ'].
Qed.

Lemma run_settle {A B} (o : Outcome A) (k : A -> Async B) σ :
  (settle o ≫= k) σ
  = match o with
    | Resolved a => k a σ
    | Rejected e => (Rejected e, σ, [])
    end.
Proof.
  rewrite run_bind. unfold settle. destruct o; [apply after_nil|done].
Qed.

(** A continuation that only computes leaves the events as they are. *)
Lemma events_bind_quiet {A B} (m : Async A) (k : A -> Async B) σ :
  (forall a σ', events (k a σ') = []) ->
  events ((m ≫= k) σ) = events (m σ).
Proof.
  intros Hk. rewrite run_bind.
  destruct (m σ) as [[[a|e] σ'] t]; [|done].
  rewrite events_after, Hk. apply app_nil_r.
Qed.

(** *** Header preparation *)

Lemma prepareHeaders_quiet σ : events (prepareHeaders σ) = [].
Proof.
  unfold_prepareHeaders. rewrite run_this.
  destruct (getExtraSessionInfo caps) as [supplier|]; [|done].
  rewrite run_bind. unfold await.
  destruct (supplier σ) as [[info|e] σ']; [|done].
  by destruct (truthy info).
Qed.

Lemma prepareHeaders_authorization σ h σ' t tok :
  prepareHeaders σ = (Resolved h, σ', t) ->
  _accessToken (client σ) = Some tok -> tok <> [] ->
  h !! lit "authorization" = Some (lit "bearer " ++ tok).
Proof.
  intros Hrun Htok Hne.
  unfold_prepareHeaders_in Hrun. rewrite run_this in Hrun.
  rewrite Htok in Hrun.
  assert (Htruthy : truthy (JString tok) = true).
  { simpl. unfold jsstring_eqb. by rewrite bool_decide_eq_false_2. }
  rewrite Htruthy in Hrun.
  set (base := <[lit "authorization":=lit "bearer " ++ tok]>
                 ({[lit "x-skygear-api-key" := apiKey (client σ)]}
                    : gmap jsstring jsstring)) in Hrun.
  assert (Hbase : base !! lit "authorization" = Some (lit "bearer " ++ tok))
    by apply lookup_insert_eq.
  set (agent := match userAgent (client σ) with
                | Some ua => <[lit "user-agent":=ua]> base
                | None => base
                end) in Hrun.
  assert (Hagent : agent !! lit "authorization"
                   = Some (lit "bearer " ++ tok)).
  { unfold agent. destruct (userAgent (client σ)); [|done].
    rewrite lookup_insert_ne; [done|]. by vm_compute. }
  clearbody agent. clear base Hbase.
  destruct (getExtraSessionInfo caps) as [supplier|].
  - rewrite run_bind in Hrun. unfold await in Hrun.
    destruct (supplier σ) as [[info|e] σ'']; [|done].
    destruct (truthy info); injection Hrun as <- _ _; [|done].
    rewrite lookup_insert_ne; [done|]. by vm_compute.
  - by injection Hrun as <- _ _.
Qed.

(** *** The stale-token retry of [fetch] *)

(** The first request of a call. *)
Local Abbreviation first_request cls σ input init headers :=
  (set_headers headers (Request_new cls (fetch_url (client σ) input) init)).

(** The run of [fetch] when the token is refreshed and the retry sent. *)
Lemma fetch_retry_run input init option σ transport cls refresher
    h1 σa r1 σ1 σ2 h2 σb :
  fetchFunction caps = Some transport ->
  requestClass caps = Some cls ->
  refreshTokenFunction caps = Some refresher ->
  autoRefreshToken_or_default caps option = true ->
  prepareHeaders σ = (Resolved h1, σa, []) ->
  transport (first_request cls σ input init h1) σa = (Resolved r1, σ1) ->
  shouldRefreshToken r1 = true ->
  refresher σ1 = (Resolved true, σ2) ->
  prepareHeaders σ2 = (Resolved h2, σb, []) ->
  let q1 := first_request cls σ input init h1 in
  let q2 := set_headers h2 q1 in
  fetch input init option σ
  = ((transport q2 σb).1, (transport q2 σb).2,
     [Exchange q1; RefreshCall; Exchange q2]).
Proof.
  intros Hf Hc Hr Hauto Hp1 Ht1 Hstale Href Hp2.
  unfold_fetch. rewrite Hf, Hc, Hr, Hauto. rewrite run_this.
  rewrite run_bind, Hp1, after_nil. unfold clone.
  rewrite run_await, Ht1, Hstale. cbn [andb].
  rewrite run_await, Href. rewrite run_bind, Hp2, after_nil.
  unfold await.
  by destruct (transport _ σb) as [o σc].
Qed.

(** Every run of [fetch] leaves one of four traces. *)
Lemma fetch_events_shape input init option σ :
  exists cls h1 h2,
    let q1 := first_request cls σ input init h1 in
    In (events (fetch input init option σ))
       [ []; [Exchange q1]; [Exchange q1; RefreshCall];
         [Exchange q1; RefreshCall; Exchange (set_headers h2 q1)] ]
    /\ (In RefreshCall (events (fetch input init option σ)) ->
        autoRefreshToken_or_default caps option = true).
Proof.
  unfold_fetch.
  destruct (fetchFunction caps) as [transport|];
    [|exists PlatformRequest, ∅, ∅; simpl; intuition congruence].
  destruct (requestClass caps) as [cls|];
    [|exists PlatformRequest, ∅, ∅; simpl; intuition congruence].
  rewrite run_this, run_bind.
  pose proof (prepareHeaders_quiet σ) as Hq1.
  destruct (prepareHeaders σ) as [[[h1|e] σa] t0]; simpl in Hq1; subst t0;
    [|exists cls, ∅, ∅; simpl; intuition congruence].
  rewrite after_nil, run_await. unfold clone.
  destruct (transport _ σa) as [[r1|e] σ1];
    [|exists cls, h1, ∅; simpl; intuition congruence].
  destruct (shouldRefreshToken r1); cbn [andb];
    [|exists cls, h1, ∅; simpl; intuition congruence].
  destruct (autoRefreshToken_or_default caps option);
    [|exists cls, h1, ∅; simpl; intuition congruence].
  destruct (refreshTokenFunction caps) as [refresher|];
    [|exists cls, h1, ∅; simpl; intuition congruence].
  rewrite run_await.
  destruct (refresher σ1) as [[[|]|e] σ2];
    [|exists cls, h1, ∅; simpl; intuition congruence..].
  rewrite run_bind.
  pose proof (prepareHeaders_quiet σ2) as Hq2.
  destruct (prepareHeaders σ2) as [[[h2|e] σb] t0]; simpl in Hq2; subst t0;
    [|exists cls, h1, ∅; simpl; intuition congruence].
  rewrite after_nil. unfold await.
  exists cls, h1, h2.
  destruct (transport _ σb) as [o σc]. simpl. intuition congruence.
Qed.

Lemma fetch_bounds input init option σ :
  (exchanges (events (fetch input init option σ)) <= 2)%nat
  /\ (refreshes (events (fetch input init option σ)) <= 1)%nat.
Proof.
  destruct (fetch_events_shape input init option σ)
    as (cls & h1 & h2 & Hshape & _).
  simpl in Hshape.
  destruct Hshape as [<-|[<-|[<-|[<-|[]]]]]; unfold exchanges, refreshes;
    simpl; lia.
Qed.

(** Every exchange of a call goes to the URL of the call, with the
    method and the body of its [init]. *)
Lemma fetch_exchange_request input init option σ q :
  In (Exchange q) (events (fetch input init option σ)) ->
  req_url q = fetch_url (client σ) input
  /\ req_method q = from_option init_method GET init
  /\ req_body q = init ≫= init_body.
Proof.
  destruct (fetch_events_shape input init option σ)
    as (cls & h1 & h2 & Hshape & _).
  assert (Hnew :
    let q0 := Request_new cls (fetch_url (client σ) input) init in
    req_url q0 = fetch_url (client σ) input
    /\ req_method q0 = from_option init_method GET init
    /\ req_body q0 = init ≫= init_body) by by destruct init.
  intros Hin. simpl in Hshape.
  destruct Hshape as [Heq|[Heq|[Heq|[Heq|[]]]]]; rewrite <- Heq in Hin;
    simpl in Hin;
    repeat match goal with
           | H : _ \/ _ |- _ => destruct H
           | H : False |- _ => destruct H
           | H : RefreshCall = Exchange _ |- _ => discriminate H
           | H : Exchange _ = Exchange _ |- _ => injection H as <-
           end; exact Hnew.
Qed.

(** With a transport and a request class, and the headers prepared, the
    first exchange is started. *)
Lemma fetch_issues_exchange input init option σ h σa :
  is_Some (fetchFunction caps) -> is_Some (requestClass caps) ->
  prepareHeaders σ = (Resolved h, σa, []) ->
  exists q rest, events (fetch input init option σ) = Exchange q :: rest.
Proof.
  intros [transport Hf] [cls Hc] Hp. unfold_fetch.
  rewrite Hf, Hc, run_this, run_bind, Hp, after_nil, run_await.
  destruct (transport _ σa) as [[r1|e] σ1]; [|by eexists _, _].
  rewrite events_after. by eexists _, _.
Qed.

(** With the option switched off the refresh capability is not called
    and a single exchange is all there is. *)
Lemma fetch_without_auto_refresh input init σ :
  ~ In RefreshCall (events (fetch input init (Some false) σ))
  /\ (exchanges (events (fetch input init (Some false) σ)) <= 1)%nat.
Proof.
  destruct (fetch_events_shape input init (Some false) σ)
    as (cls & h1 & h2 & Hshape & Hauto).
  assert (Hno : ~ In RefreshCall (events (fetch input init (Some false) σ))).
  { intros Hin. by specialize (Hauto Hin). }
  split; [done|].
  simpl in Hshape.
  destruct Hshape as [Heq|[Heq|[Heq|[Heq|[]]]]]; rewrite <- Heq in *;
    unfold exchanges; simpl; try lia; exfalso; apply Hno; simpl; tauto.
Qed.

(** C1, as amended.  A call of [fetch] starts at most two exchanges and
    calls the refresh capability at most once.  When the first response
    carries the stale-token header, [autoRefreshToken] is enabled, the
    refresh capability resolves to true and the headers of the retry are
    prepared, the call starts exactly one more exchange and settles as
    that exchange does, whatever headers the second response carries. *)
Theorem fetch_refreshes_and_retries_once input init option σ :
  ((exchanges (events (fetch input init option σ)) <= 2)%nat
   /\ (refreshes (events (fetch input init option σ)) <= 1)%nat)
  /\ forall transport cls refresher h1 σa r1 σ1 σ2 h2 σb,
       fetchFunction caps = Some transport ->
       requestClass caps = Some cls ->
       refreshTokenFunction caps = Some refresher ->
       autoRefreshToken_or_default caps option = true ->
       prepareHeaders σ = (Resolved h1, σa, []) ->
       transport (first_request cls σ input init h1) σa = (Resolved r1, σ1) ->
       shouldRefreshToken r1 = true ->
       refresher σ1 = (Resolved true, σ2) ->
       prepareHeaders σ2 = (Resolved h2, σb, []) ->
       let q1 := first_request cls σ input init h1 in
       let q2 := set_headers h2 q1 in
       fetch input init option σ
       = ((transport q2 σb).1, (transport q2 σb).2,
          [Exchange q1; RefreshCall; Exchange q2])
       /\ exchanges (events (fetch input init option σ)) = 2%nat
       /\ refreshes (events (fetch input init option σ)) = 1%nat.
Proof.
  split; [apply fetch_bounds|].
  intros transport cls refresher h1 σa r1 σ1 σ2 h2 σb
    Hf Hc Hr Hauto Hp1 Ht1 Hstale Href Hp2 q1 q2.
  pose proof (fetch_retry_run input init option σ transport cls refresher
                h1 σa r1 σ1 σ2 h2 σb Hf Hc Hr Hauto Hp1 Ht1 Hstale Href Hp2)
    as Hrun.
  cbv zeta in Hrun. fold q1 in Hrun. fold q2 in Hrun.
  split; [done|]. by rewrite Hrun.
Qed.

(** C2, as amended.  In the retry of [fetch] the headers are prepared
    after the refresh capability has returned and are set on a clone of
    the first request: for every non-empty access token that the client
    holds at that moment, the retried request carries the authorization
    header of that token. *)
Theorem retry_carries_refreshed_token
    input init option σ transport cls refresher h1 σa r1 σ1 σ2 h2 σb tok :
  fetchFunction caps = Some transport ->
  requestClass caps = Some cls ->
  refreshTokenFunction caps = Some refresher ->
  autoRefreshToken_or_default caps option = true ->
  prepareHeaders σ = (Resolved h1, σa, []) ->
  transport (first_request cls σ input init h1) σa = (Resolved r1, σ1) ->
  shouldRefreshToken r1 = true ->
  refresher σ1 = (Resolved true, σ2) ->
  prepareHeaders σ2 = (Resolved h2, σb, []) ->
  _accessToken (client σ2) = Some tok -> tok <> [] ->
  let q1 := first_request cls σ input init h1 in
  let q2 := set_headers h2 q1 in
  events (fetch input init option σ)
  = [Exchange q1; RefreshCall; Exchange q2]
  /\ req_headers q2 !! lit "authorization" = Some (lit "bearer " ++ tok).
Proof.
  intros Hf Hc Hr Hauto Hp1 Ht1 Hstale Href Hp2 Htok Hne q1 q2. split.
  - by rewrite (fetch_retry_run input init option σ transport cls refresher
                  h1 σa r1 σ1 σ2 h2 σb).
  - simpl. apply lookup_union_Some_l.
    by eapply prepareHeaders_authorization.
Qed.

Lemma run_request method path options σ :
  request method path options σ
  = match fetch (request_path encodeQuery path options)
                (Some (request_init method options))
                (autoRefreshToken options) σ with
    | (Resolved response, σ', t) =>
        (decode_response decodeError response, σ', t)
    | (Rejected e, σ', t) => (Rejected e, σ', t)
    end.
Proof.
  unfold_request. rewrite run_bind.
  destruct (fetch _ _ _ σ) as [[[response|e] σ'] t]; [|done].
  unfold settle. simpl. by rewrite app_nil_r.
Qed.

(** C7.  When the first response carries the stale-token header,
    [autoRefreshToken] is enabled and the refresh capability resolves to
    false, [fetch] starts no second exchange and resolves to the first
    response, so that [request] gives its caller the decoding of that
    response. *)
Theorem failed_refresh_keeps_first_response
    input init option σ transport cls refresher h1 σa r1 σ1 σ2 :
  fetchFunction caps = Some transport ->
  requestClass caps = Some cls ->
  refreshTokenFunction caps = Some refresher ->
  autoRefreshToken_or_default caps option = true ->
  prepareHeaders σ = (Resolved h1, σa, []) ->
  transport (first_request cls σ input init h1) σa = (Resolved r1, σ1) ->
  shouldRefreshToken r1 = true ->
  refresher σ1 = (Resolved false, σ2) ->
  let q1 := first_request cls σ input init h1 in
  fetch input init option σ = (Resolved r1, σ2, [Exchange q1; RefreshCall])
  /\ exchanges (events (fetch input init option σ)) = 1%nat
  /\ forall method path options,
       input = request_path encodeQuery path options ->
       init = Some (request_init method options) ->
       option = autoRefreshToken options ->
       request method path options σ
       = (decode_response decodeError r1, σ2, [Exchange q1; RefreshCall]).
Proof.
  intros Hf Hc Hr Hauto Hp1 Ht1 Hstale Href q1.
  assert (Hrun : fetch input init option σ
                 = (Resolved r1, σ2, [Exchange q1; RefreshCall])).
  { unfold_fetch. rewrite Hf, Hc, Hr, Hauto, run_this.
    rewrite run_bind, Hp1, after_nil. unfold clone.
    rewrite run_await, Ht1, Hstale. cbn [andb].
    by rewrite run_await, Href. }
  split; [done|]. split; [by rewrite Hrun|].
  intros method path options -> -> ->.
  by rewrite run_request, Hrun.
Qed.

(** *** Decoding *)

(** C4.  For a body that parsed to an object, [request] returns the value
    under the result key when it is truthy, else fails with the error
    decoded from the value under the error key when that is truthy, else
    fails with the error that [decodeError] makes of no argument.  The
    outcome is the same for any response with the same parsed body,
    whatever its status. *)
Theorem request_decodes_envelope
    method path options σ response σ' t props :
  fetch (request_path encodeQuery path options)
        (Some (request_init method options))
        (autoRefreshToken options) σ = (Resolved response, σ', t) ->
  resp_json response = Some (JObject props) ->
  let result := default JUndefined (get_own (lit "result") props) in
  let error := default JUndefined (get_own (lit "error") props) in
  request method path options σ
  = (if truthy result then Resolved result
     else if truthy error then Rejected (decodeError error)
     else Rejected (decodeError JUndefined), σ', t)
  /\ forall response',
       resp_json response' = resp_json response ->
       decode_response decodeError response'
       = decode_response decodeError response.
Proof.
  intros Hrun Hjson result error. split.
  - rewrite run_request, Hrun. unfold decode_response. rewrite Hjson.
    unfold decode_envelope. simpl. fold result. fold error.
    destruct (truthy result); [done|]. by destruct (truthy error).
  - intros response' Hsame. unfold decode_response.
    by rewrite Hsame, Hjson.
Qed.

(** C5.  For a response whose body does not parse, [request] fails: with
    the unexpected-status error that carries the status when the status
    is outside of 200 to 299, and with the failed-to-decode error
    otherwise. *)
Theorem request_unparsable_body
    method path options σ response σ' t :
  fetch (request_path encodeQuery path options)
        (Some (request_init method options))
        (autoRefreshToken options) σ = (Resolved response, σ', t) ->
  resp_json response = None ->
  ((status response < 200 \/ 300 <= status response)%Z ->
   request method path options σ
   = (Rejected
        (SkygearError (lit "unexpected status code")
           (lit "InternalError") (lit "UnexpectedError")
           (Some (JObject [(lit "status_code",
                            JNumber (number_of_Z (status response)))]))),
      σ', t))
  /\ ((200 <= status response < 300)%Z ->
      request method path options σ
      = (Rejected
           (SkygearError (lit "failed to decode response JSON")
              (lit "InternalError") (lit "UnexpectedError") None),
         σ', t))
  /\ exists e, outcome (request method path options σ) = Rejected e.
Proof.
  intros Hrun Hjson. rewrite run_request, Hrun.
  unfold decode_response. rewrite Hjson.
  destruct (Z.ltb_spec (status response) 200);
    destruct (Z.geb_spec (status response) 300); simpl;
    (split; [intros; first [done|lia]|split; [intros; first [done|lia]|]]);
    by eexists.
Qed.

(** C10.  [refresh] never calls the refresh capability and starts at most
    one exchange, a POST of the refresh token to the refresh endpoint,
    whatever capabilities are configured and whatever the response
    carries. *)
Theorem refresh_never_refreshes refreshToken σ :
  let run :=
    refresh JSON_stringify _encodeBase64FromString encodeQuery decodeError
      caps refreshToken σ in
  ~ In RefreshCall (events run)
  /\ (exchanges (events run) <= 1)%nat
  /\ refreshes (events run) = 0%nat
  /\ forall q, In (Exchange q) (events run) ->
       req_method q = POST
       /\ req_url q = endpoint (client σ) ++ lit "/_auth/refresh"
       /\ req_body q
          = Some (JSONText [(lit "refresh_token", JString refreshToken)]).
Proof.
  intros run.
  assert (Hev : events run
                = events (fetch (lit "/_auth/refresh")
                            (Some (request_init POST
                               {| json := Some [(lit "refresh_token",
                                                 JString refreshToken)];
                                  query := None;
                                  autoRefreshToken := Some false |}))
                            (Some false) σ)).
  { unfold run, refresh. cbv zeta. rewrite events_bind_quiet by done.
    unfold_request. by rewrite events_bind_quiet. }
  rewrite Hev.
  destruct (fetch_without_auto_refresh (lit "/_auth/refresh")
              (Some (request_init POST
                 {| json := Some [(lit "refresh_token",
                                   JString refreshToken)];
                    query := None;
                    autoRefreshToken := Some false |})) σ) as [Hno Hle].
  split; [done|]. split; [done|]. split.
  - unfold refreshes. destruct (List.filter is_refresh _) as [|e l] eqn:Hf;
      [done|].
    exfalso. apply Hno.
    assert (Hin : In e (List.filter is_refresh
               (events (fetch (lit "/_auth/refresh")
                  (Some (request_init POST
                     {| json := Some [(lit "refresh_token",
                                       JString refreshToken)];
                        query := None;
                        autoRefreshToken := Some false |}))
                  (Some false) σ)))) by (rewrite Hf; by left).
    apply filter_In in Hin as [Hin He]. by destruct e.
  - intros q Hq. apply fetch_exchange_request in Hq as (Hurl & Hm & Hb).
    by rewrite Hurl, Hm, Hb.
Qed.

(** *** Payloads of the auth-flow operations *)

Lemma post_events path options σ :
  events (post path options σ)
  = events (fetch (request_path encodeQuery path options)
                  (Some (request_init POST options))
                  (autoRefreshToken options) σ).
Proof. unfold_request. by rewrite events_bind_quiet. Qed.

Lemma post_exchange_payload path payload σ q :
  In (Exchange q) (events (post path (with_json payload) σ)) ->
  req_body q = Some (JSONText payload).
Proof.
  rewrite post_events. intros Hq.
  by apply fetch_exchange_request in Hq as (_ & _ & ->).
Qed.

Lemma post_issues_exchange path options σ h σa :
  is_Some (fetchFunction caps) -> is_Some (requestClass caps) ->
  prepareHeaders σ = (Resolved h, σa, []) ->
  exists q rest, events (post path options σ) = Exchange q :: rest.
Proof. rewrite post_events. apply fetch_issues_exchange. Qed.

Lemma threads_of_post {A} (m : Async A) σ path payload :
  events (m σ)
  = events (post path
              (with_json
                 (makePayloadWithAuthenticationSessionToken (client σ)
                    payload)) σ) ->
  get_own (lit "authn_session_token") payload = None ->
  threads_session_token m σ.
Proof.
  intros Hev Hfree. split.
  - intros q Hq. rewrite Hev in Hq. apply post_exchange_payload in Hq.
    eexists. split; [done|].
    rewrite makePayload_session_token, Hfree.
    by destruct (_authenticationSession (client σ)).
  - intros h σa Hf Hc Hp. rewrite Hev. by eapply post_issues_exchange.
Qed.

Lemma omits_of_post {A} (m : Async A) σ path payload :
  events (m σ) = events (post path (with_json payload) σ) ->
  get_own (lit "authn_session_token") payload = None ->
  omits_session_token m σ.
Proof.
  intros Hev Hfree. split.
  - intros q Hq. rewrite Hev in Hq. apply post_exchange_payload in Hq.
    by eexists.
  - intros h σa Hf Hc Hp. rewrite Hev. by eapply post_issues_exchange.
Qed.

(** The events of an operation are those of its [post]. *)
Ltac operation_events :=
  unfold_operations; rewrite ?run_this; cbv zeta;
  repeat (rewrite events_bind_quiet
            by (intros; simpl; repeat case_match; reflexivity));
  reflexivity.

Ltac threads := eapply threads_of_post; [operation_events|reflexivity].
Ltac omits := eapply omits_of_post; [operation_events|reflexivity].

(** C3.  Every MFA-step operation (TOTP activate and authenticate, OOB
    trigger, activate and authenticate, recovery-code authenticate,
    bearer-token authenticate), for every argument: when the client
    holds an authentication session, the outgoing payload has the field
    [authn_session_token] with the token of that session; when it holds
    none, the payload has no such field. *)
Theorem mfa_steps_thread_session_token
    σ (otp code : jsstring) (options : JSObject)
    (authenticatorID bearerToken : Datatypes.option jsstring) :
  threads_session_token (activateTOTP otp) σ
  /\ threads_session_token (authenticateWithTOTP options) σ
  /\ threads_session_token (triggerOOB authenticatorID) σ
  /\ threads_session_token (activateOOB code) σ
  /\ threads_session_token (authenticateWithOOB options) σ
  /\ threads_session_token (authenticateWithRecoveryCode code) σ
  /\ threads_session_token (authenticateWithBearerToken bearerToken) σ.
Proof. repeat apply conj; threads. Qed.

(** C6, as amended.  Create-new-TOTP, create-new-OOB, activate-TOTP,
    activate-OOB and list-authenticators merge the held
    authentication-session token into their payload under
    [authn_session_token]; delete-authenticator, recovery-code list and
    recovery-code regenerate send their payload without that field,
    whether a session is held or not. *)
Theorem enrollment_session_token
    σ (otp code id : jsstring) (options : JSObject) :
  (threads_session_token (createNewTOTP options) σ
   /\ threads_session_token (createNewOOB options) σ
   /\ threads_session_token (activateTOTP otp) σ
   /\ threads_session_token (activateOOB code) σ
   /\ threads_session_token getAuthenticators σ)
  /\ (omits_session_token (deleteAuthenticator id) σ
      /\ omits_session_token listRecoveryCode σ
      /\ omits_session_token regenerateRecoveryCode σ).
Proof.
  split; [repeat apply conj; threads|repeat apply conj; omits].
Qed.

(** *** Login identifiers *)

Lemma map_throwing_rejects {A B} (f : A -> Outcome B) (l : list A) :
  Exists (fun x => exists e, f x = Rejected e) l ->
  exists e, map_throwing f l = Rejected e.
Proof.
  induction 1 as [x l [e He]|x l _ [e IH]]; simpl.
  - rewrite He. by eexists.
  - destruct (f x); [|by eexists]. rewrite IH. by eexists.
Qed.

Lemma map_throwing_resolves {A B C} (f : A -> Outcome B) (g : C -> A)
    (h : C -> B) (l : list C) :
  (forall x, f (g x) = Resolved (h x)) ->
  map_throwing f (map g l) = Resolved (map h l).
Proof.
  intros Hf. induction l as [|x l IH]; simpl; [done|].
  by rewrite Hf, IH.
Qed.

(** C9.  [addLoginID], [removeLoginID] and [updateLoginID] reject any
    identifier object whose number of keys is not one before anything
    else happens: no exchange is started and the state is left as it
    was.  Identifier objects with exactly one key are turned into
    objects with the two fields [key] and [value], holding the key as a
    string and its value, and posted. *)
Theorem login_id_helpers_require_one_key σ :
  (forall loginIDs,
     Exists (fun o => length (Object_keys o) <> 1%nat) loginIDs ->
     exists e, addLoginID loginIDs σ = (Rejected e, σ, []))
  /\ (forall loginID,
        length (Object_keys loginID) <> 1%nat ->
        exists e, removeLoginID loginID σ = (Rejected e, σ, []))
  /\ (forall oldLoginID newLoginID,
        length (Object_keys oldLoginID) <> 1%nat
        \/ length (Object_keys newLoginID) <> 1%nat ->
        exists e, updateLoginID oldLoginID newLoginID σ
                  = (Rejected e, σ, []))
  /\ (forall pairs : list (jsstring * JSValue),
        addLoginID (map (fun kv => [kv]) pairs) σ
        = post (lit "/_auth/login_id/add")
            (with_json
               [(lit "login_ids",
                 JArray
                   (map (fun kv =>
                           JObject [(lit "key", JString kv.1);
                                    (lit "value", kv.2)]) pairs))]) σ)
  /\ (forall loginID,
        length (Object_keys loginID) = 1%nat ->
        exists k v,
          loginID = [(k, v)]
          /\ removeLoginID loginID σ
             = post (lit "/_auth/login_id/remove")
                 (with_json [(lit "key", JString k); (lit "value", v)]) σ)
  /\ (forall oldLoginID newLoginID,
        length (Object_keys oldLoginID) = 1%nat ->
        length (Object_keys newLoginID) = 1%nat ->
        exists k v k' v',
          oldLoginID = [(k, v)] /\ newLoginID = [(k', v')]
          /\ updateLoginID oldLoginID newLoginID σ
             = postAndReturnAuthResponse (lit "/_auth/login_id/update")
                 (with_json
                    [(lit "old_login_id",
                      JObject [(lit "key", JString k); (lit "value", v)]);
                     (lit "new_login_id",
                      JObject [(lit "key", JString k');
                               (lit "value", v')])]) σ).
Proof.
  repeat apply conj.
  - intros loginIDs Hbad. unfold_operations. rewrite run_settle.
    edestruct (map_throwing_rejects
      (fun loginID =>
         match extractSingleKeyValue loginID
                 (lit "must provide exactly one login ID") with
         | Resolved kv => Resolved (key_value kv)
         | Rejected e => Rejected e
         end) loginIDs) as [e ->]; [|by eexists].
    eapply Exists_impl; [exact Hbad|]. intros o Ho. simpl.
    rewrite extractSingleKeyValue_rejects by done. by eexists.
  - intros loginID Hbad. unfold_operations. rewrite run_settle.
    rewrite extractSingleKeyValue_rejects by done. by eexists.
  - intros oldLoginID newLoginID Hbad. unfold_operations.
    rewrite run_settle.
    destruct (extractSingleKeyValue oldLoginID _) as [old|e] eqn:Hold;
      [|by eexists].
    rewrite run_settle.
    destruct Hbad as [Hbad|Hbad].
    + by rewrite extractSingleKeyValue_rejects in Hold.
    + rewrite extractSingleKeyValue_rejects by done. by eexists.
  - intros pairs. unfold_operations. rewrite run_settle.
    rewrite (map_throwing_resolves _ (fun kv => [kv]) key_value); [done|].
    intros [k v]. by rewrite extractSingleKeyValue_single.
  - intros loginID Hone. destruct (single_key _ Hone) as (k & v & ->).
    exists k, v. split; [done|]. unfold_operations.
    by rewrite run_settle, extractSingleKeyValue_single.
  - intros oldLoginID newLoginID Hold Hnew.
    destruct (single_key _ Hold) as (k & v & ->).
    destruct (single_key _ Hnew) as (k' & v' & ->).
    exists k, v, k', v'. split; [done|]. split; [done|].
    unfold_operations.
    rewrite run_settle, extractSingleKeyValue_single.
    by rewrite run_settle, extractSingleKeyValue_single.
Qed.
End PipelineProperties.

(* ===================================================================== *)
(** * The properties at work on the test doubles *)
(* ===================================================================== *)

Import Scenario.

Lemma fetch_refreshes_and_retries_once_witness :
  let caps :=
    capabilities always_stale
      (Some (refresh_storing (Some (lit "tok2")) true)) None in
  let run :=
    fetch stringify base64 caps (lit "/_auth/me") None None
      (start configured) in
  outcome run = Resolved stale_response
  /\ exchanges (events run) = 2%nat
  /\ refreshes (events run) = 1%nat.
Proof.
  intros caps run.
  destruct (fetch_refreshes_and_retries_once stringify base64 caps
              (lit "/_auth/me") None None (start configured))
    as [_ Hretry].
  edestruct Hretry as (Hrun & Hex & Href).
  - reflexivity.
  - reflexivity.
  - reflexivity.
  - reflexivity.
  - reflexivity.
  - reflexivity.
  - vm_compute. reflexivity.
  - reflexivity.
  - reflexivity.
  - fold run in Hrun, Hex, Href. split; [by rewrite Hrun|done].
Defined.

(** The claim as first stated fails when the supplier of extra session
    info rejects while the headers of the retry are prepared: the first
    response carries the stale-token header, [autoRefreshToken] is enabled
    by default, the refresh capability resolves to true, and yet the call
    rejects after a single exchange. *)
Lemma fetch_retry_without_headers_counterexample :
  let refresher := refresh_storing (Some (lit "tok2")) true in
  let caps := capabilities always_stale (Some refresher)
                (Some device_info_once) in
  let run :=
    fetch stringify base64 caps (lit "/_auth/me") None None
      (start configured) in
  exists q1,
    events run = [Exchange q1; RefreshCall]
    /\ always_stale q1 (start configured)
       = (Resolved stale_response, served (start configured))
    /\ shouldRefreshToken stale_response = true
    /\ autoRefreshToken_or_default caps None = true
    /\ (refresher (served (start configured))).1 = Resolved true
    /\ outcome run = Rejected (Error (lit "device info unavailable"))
    /\ exchanges (events run) <> 2%nat.
Proof.
  intros refresher caps run. eexists.
  split; [vm_compute; reflexivity|].
  repeat apply conj; try (vm_compute; reflexivity).
  vm_compute. discriminate.
Qed.

Lemma retry_carries_refreshed_token_witness :
  let caps :=
    capabilities stale_once
      (Some (refresh_storing (Some (lit "tok2")) true)) None in
  exists q1 q2,
    events (fetch stringify base64 caps (lit "/_auth/me") None None
              (start configured))
    = [Exchange q1; RefreshCall; Exchange q2]
    /\ req_headers q1 !! lit "authorization" = Some (lit "bearer tok1")
    /\ req_headers q2 !! lit "authorization"
       = Some (lit "bearer " ++ lit "tok2").
Proof.
  intros caps.
  edestruct (retry_carries_refreshed_token stringify base64 caps
               (lit "/_auth/me") None None (start configured))
    as [Hev Hauth].
  - reflexivity.
  - reflexivity.
  - reflexivity.
  - reflexivity.
  - reflexivity.
  - reflexivity.
  - vm_compute. reflexivity.
  - reflexivity.
  - reflexivity.
  - reflexivity.
  - discriminate.
  - eexists _, _. split; [exact Hev|]. split; [|exact Hauth].
    vm_compute. reflexivity.
Defined.

(** The claim as first stated fails for the empty token: the refresh
    capability stores the empty string and resolves to true, the headers
    prepared for the retry hold no authorization, and the retried request
    keeps the authorization header of the token read before the
    refresh. *)
Lemma retry_keeps_old_authorization_counterexample :
  let refresher := refresh_storing (Some []) true in
  let caps := capabilities always_stale (Some refresher) None in
  let run :=
    fetch stringify base64 caps (lit "/_auth/me") None None
      (start configured) in
  exists q1 q2,
    events run = [Exchange q1; RefreshCall; Exchange q2]
    /\ _accessToken (client (start configured)) = Some (lit "tok1")
    /\ _accessToken (client (refresher (served (start configured))).2)
       = Some []
    /\ req_headers q2 !! lit "authorization" = Some (lit "bearer tok1")
    /\ req_headers q2 !! lit "authorization" <> Some (lit "bearer " ++ []).
Proof.
  intros refresher caps run. eexists _, _.
  split; [vm_compute; reflexivity|].
  repeat apply conj; try (vm_compute; reflexivity).
  vm_compute. discriminate.
Qed.

Lemma failed_refresh_keeps_first_response_witness :
  let caps :=
    capabilities always_stale
      (Some (refresh_storing (Some (lit "tok1")) false)) None in
  let options := with_json [] in
  exists σ' q1,
    request stringify base64 encode_query decode_error caps POST
      (lit "/_auth/me") options (start configured)
    = (decode_response decode_error stale_response, σ',
       [Exchange q1; RefreshCall]).
Proof.
  intros caps options.
  edestruct (failed_refresh_keeps_first_response stringify base64
               encode_query decode_error caps
               (request_path encode_query (lit "/_auth/me") options)
               (Some (request_init POST options))
               (autoRefreshToken options) (start configured))
    as (_ & _ & Hreq).
  - reflexivity.
  - reflexivity.
  - reflexivity.
  - reflexivity.
  - reflexivity.
  - reflexivity.
  - vm_compute. reflexivity.
  - reflexivity.
  - eexists _, _. by apply Hreq.
Defined.

Lemma request_decodes_envelope_witness :
  let caps := capabilities always_fresh None None in
  exists σ' t,
    request stringify base64 encode_query decode_error caps POST
      (lit "/_auth/me") (with_json []) (start configured)
    = (Resolved (JObject [(lit "user_id", JString (lit "u1"))]), σ', t).
Proof.
  intros caps.
  edestruct (request_decodes_envelope stringify base64 encode_query
               decode_error caps POST (lit "/_auth/me") (with_json [])
               (start configured) fresh_response)
    as [Hreq _].
  - vm_compute. reflexivity.
  - reflexivity.
  - eexists _, _. exact Hreq.
Defined.

Lemma request_unparsable_body_witness :
  let caps := capabilities always_gateway None None in
  exists σ' t,
    request stringify base64 encode_query decode_error caps POST
      (lit "/_auth/me") (with_json []) (start configured)
    = (Rejected
         (SkygearError (lit "unexpected status code")
            (lit "InternalError") (lit "UnexpectedError")
            (Some (JObject [(lit "status_code",
                             JNumber (number_of_Z 502))]))), σ', t).
Proof.
  intros caps.
  edestruct (request_unparsable_body stringify base64 encode_query
               decode_error caps POST (lit "/_auth/me") (with_json [])
               (start configured) gateway_response)
    as (Hout & _ & _).
  - vm_compute. reflexivity.
  - reflexivity.
  - eexists _, _. apply Hout. right. simpl. lia.
Defined.

Lemma mfa_steps_thread_session_token_witness :
  let caps := capabilities always_fresh None None in
  let σ := start (with_session (Some {| token := lit "sess1" |}) configured) in
  let options := [(lit "otp", JString (lit "123456"))] in
  exists q payload,
    events (authenticateWithTOTP stringify base64 encode_query decode_error
              caps decode_value options σ) = [Exchange q]
    /\ req_body q = Some (JSONText payload)
    /\ get_own (lit "authn_session_token") payload
       = Some (JString (lit "sess1"))
    /\ get_own (lit "otp") payload = Some (JString (lit "123456")).
Proof.
  intros caps σ options.
  destruct (mfa_steps_thread_session_token stringify base64 encode_query
              decode_error decode_value caps σ [] [] options None None)
    as (_ & [Hsent _] & _).
  assert (Hev : exists q,
             events (authenticateWithTOTP stringify base64 encode_query
                       decode_error caps decode_value options σ)
             = [Exchange q]
             /\ req_body q
                = Some (JSONText
                          [(lit "request_bearer_token", JUndefined);
                           (lit "otp", JString (lit "123456"));
                           (lit "authn_session_token",
                            JString (lit "sess1"))])).
  { eexists. split; vm_compute; reflexivity. }
  destruct Hev as (q & Hev & Hbody).
  destruct (Hsent q) as (payload & Hpayload & Htoken).
  { rewrite Hev. by left. }
  exists q, payload. split; [done|]. split; [done|]. split; [done|].
  rewrite Hbody in Hpayload. by injection Hpayload as <-.
Defined.

Lemma enrollment_session_token_witness :
  let caps := capabilities always_fresh None None in
  let σ := start (with_session (Some {| token := lit "sess1" |}) configured) in
  exists q payload,
    events (activateTOTP stringify base64 encode_query decode_error caps
              (lit "123456") σ) = [Exchange q]
    /\ req_body q = Some (JSONText payload)
    /\ get_own (lit "authn_session_token") payload
       = Some (JString (lit "sess1")).
Proof.
  intros caps σ.
  destruct (enrollment_session_token (Authenticator := JSValue)
              stringify base64 encode_query decode_error decode_value caps σ
              (lit "123456") [] [] [])
    as ((_ & _ & [Hsent _] & _) & _).
  assert (Hev : exists q,
             events (activateTOTP stringify base64 encode_query decode_error
                       caps (lit "123456") σ) = [Exchange q]).
  { eexists. vm_compute. reflexivity. }
  destruct Hev as (q & Hev).
  destruct (Hsent q) as (payload & Hpayload & Htoken).
  { rewrite Hev. by left. }
  by exists q, payload.
Defined.

(** The claim as first stated fails for delete-authenticator: with a
    session held, the one exchange of the call carries the authenticator
    id alone. *)
Lemma delete_authenticator_counterexample :
  let caps := capabilities always_fresh None None in
  let σ := start (with_session (Some {| token := lit "sess1" |}) configured) in
  let run :=
    deleteAuthenticator stringify base64 encode_query decode_error caps
      (lit "auth1") σ in
  _authenticationSession (client σ) = Some {| token := lit "sess1" |}
  /\ (exists q,
        events run = [Exchange q]
        /\ req_body q
           = Some (JSONText [(lit "authenticator_id",
                              JString (lit "auth1"))]))
  /\ ~ threads_session_token stringify base64 caps
         (deleteAuthenticator stringify base64 encode_query decode_error
            caps (lit "auth1")) σ.
Proof.
  intros caps σ run.
  assert (Hev : exists q,
             events run = [Exchange q]
             /\ req_body q
                = Some (JSONText [(lit "authenticator_id",
                                   JString (lit "auth1"))])).
  { eexists. split; vm_compute; reflexivity. }
  split; [done|]. split; [done|].
  destruct Hev as (q & Hev & Hbody). intros [Hsent _].
  destruct (Hsent q) as (payload & Hpayload & Htoken).
  { fold run. rewrite Hev. by left. }
  rewrite Hbody in Hpayload. injection Hpayload as <-.
  vm_compute in Htoken. discriminate.
Qed.

Lemma login_id_helpers_require_one_key_witness :
  let caps := capabilities always_fresh None None in
  let σ := start configured in
  let email := [(lit "email", JString (lit "a@b.com"))] in
  let phone := [(lit "phone", JString (lit "+85298765432"))] in
  let two_keys := [(lit "email", JString (lit "a@b.com"));
                   (lit "username", JString (lit "a"))] in
  (exists e,
     addLoginID stringify base64 encode_query decode_error caps
       [email; two_keys] σ
     = (Rejected e, σ, []))
  /\ (exists e,
        removeLoginID stringify base64 encode_query decode_error caps [] σ
        = (Rejected e, σ, []))
  /\ (exists q,
        events (removeLoginID stringify base64 encode_query decode_error
                  caps email σ) = [Exchange q]
        /\ req_body q
           = Some (JSONText [(lit "key", JString (lit "email"));
                             (lit "value", JString (lit "a@b.com"))]))
  /\ (exists q,
        events (addLoginID stringify base64 encode_query decode_error
                  caps [email; phone] σ) = [Exchange q]
        /\ req_body q
           = Some (JSONText
                     [(lit "login_ids",
                       JArray
                         [JObject
                            [(lit "key", JString (lit "email"));
                             (lit "value", JString (lit "a@b.com"))];
                          JObject
                            [(lit "key", JString (lit "phone"));
                             (lit "value",
                              JString (lit "+85298765432"))]])]))
  /\ (exists q,
        events (updateLoginID stringify base64 encode_query decode_error
                  caps decode_value email phone σ) = [Exchange q]
        /\ req_body q
           = Some (JSONText
                     [(lit "old_login_id",
                       JObject
                         [(lit "key", JString (lit "email"));
                          (lit "value", JString (lit "a@b.com"))]);
                      (lit "new_login_id",
                       JObject
                         [(lit "key", JString (lit "phone"));
                          (lit "value",
                           JString (lit "+85298765432"))])])).
Proof.
  intros caps σ email phone two_keys.
  destruct (login_id_helpers_require_one_key (AuthResponse := JSValue)
              stringify base64 encode_query decode_error decode_value caps σ)
    as (Hadd & Hremove & _ & Hpairs & Hsent & Hupdate).
  repeat apply conj.
  - apply Hadd. apply Exists_cons_tl, Exists_cons_hd. simpl. lia.
  - apply Hremove. simpl. lia.
  - destruct (Hsent email eq_refl) as (k & v & Heq & ->).
    injection Heq as <- <-.
    eexists. split; vm_compute; reflexivity.
  - change [email; phone]
      with (map (fun kv : jsstring * JSValue => [kv])
              [(lit "email", JString (lit "a@b.com"));
               (lit "phone", JString (lit "+85298765432"))]).
    rewrite Hpairs.
    eexists. split; vm_compute; reflexivity.
  - destruct (Hupdate email phone eq_refl eq_refl)
      as (k & v & k' & v' & Hold & Hnew & ->).
    injection Hold as <- <-. injection Hnew as <- <-.
    eexists. split; vm_compute; reflexivity.
Defined.

Lemma refresh_never_refreshes_witness :
  let caps :=
    capabilities always_stale
      (Some (refresh_storing (Some (lit "tok2")) true)) None in
  let run :=
    refresh stringify base64 encode_query decode_error caps (lit "refresh1")
      (start configured) in
  shouldRefreshToken stale_response = true
  /\ exchanges (events run) = 1%nat
  /\ refreshes (events run) = 0%nat.
Proof.
  intros caps run.
  destruct (refresh_never_refreshes stringify base64 encode_query
              decode_error caps (lit "refresh1") (start configured))
    as (_ & _ & Hnone & _).
  split; [vm_compute; reflexivity|]. split; [|exact Hnone].
  vm_compute. reflexivity.
Defined.

(* ===================================================================== *)
(** * Further properties of the client *)
(* ===================================================================== *)

(** ** Trailing slashes *)

Lemma all_slashes s :
  forallb (fun c => c =? 47) s = true -> s = slashes (length s).
Proof.
  induction s as [|c s IH]; simpl; [done|].
  destruct (N.eqb_spec c 47) as [->|]; [|done]. simpl.
  intros H. unfold slashes. simpl. f_equal. by apply IH.
Qed.

Lemma slashes_snoc n : slashes (S n) = slashes n ++ [47].
Proof.
  unfold slashes. induction n as [|n IH]; simpl; [done|].
  by rewrite <- IH.
Qed.

Lemma forallb_slashes n : forallb (fun c => c =? 47) (slashes n) = true.
Proof. induction n; simpl; auto. Qed.

Lemma removeTrailingSlash_fixed s :
  (forall r, s <> r ++ [47]) -> _removeTrailingSlash s = s.
Proof.
  induction s as [|c s IH]; intros Hno; [done|].
  cbn [_removeTrailingSlash].
  destruct (forallb (fun c => c =? 47) (c :: s)) eqn:Hall.
  - apply all_slashes in Hall. simpl in Hall.
    rewrite slashes_snoc in Hall. by destruct (Hno (slashes (length s))).
  - f_equal. apply IH. intros r ->. by apply (Hno (c :: r)).
Qed.

Lemma removeTrailingSlash_run s :
  (exists n, s = _removeTrailingSlash s ++ slashes n)
  /\ (forall r, _removeTrailingSlash s <> r ++ [47]).
Proof.
  induction s as [|c s [[n IHn] IHno]].
  - split; [by exists O|]. intros [|? ?]; done.
  - cbn [_removeTrailingSlash].
    destruct (forallb (fun c => c =? 47) (c :: s)) eqn:Hall.
    + split; [|intros [|? ?]; done].
      exists (length (c :: s)). by apply all_slashes.
    + split.
      * exists n. simpl. by rewrite <- IHn.
      * intros [|c' r] Heq; simplify_eq/=.
        -- destruct (_removeTrailingSlash s) eqn:HR; [|done].
           simpl in IHn. rewrite IHn in Hall.
           change (47 :: slashes n) with (slashes (S n)) in Hall.
           by rewrite forallb_slashes in Hall.
        -- by eapply IHno.
Qed.

Lemma removeTrailingSlash_no_trailing s r :
  _removeTrailingSlash s <> r ++ lit "/".
Proof. apply removeTrailingSlash_run. Qed.

(** X1.  [_removeTrailingSlash] takes away the whole trailing run of slashes
    and nothing else: the argument is the result followed by slashes,
    the result does not end in a slash, and a second application changes
    nothing. *)
Theorem removeTrailingSlash_strips_the_trailing_run (s : jsstring) :
  (exists n, s = _removeTrailingSlash s ++ slashes n)
  /\ (forall r, _removeTrailingSlash s <> r ++ [47])
  /\ _removeTrailingSlash (_removeTrailingSlash s) = _removeTrailingSlash s.
Proof.
  pose proof (removeTrailingSlash_run s) as H.
  destruct H as [Hrun Hno]. split; [done|]. split; [done|].
  by apply removeTrailingSlash_fixed.
Qed.

Example removeTrailingSlash_example :
  _removeTrailingSlash (lit "https://a//b///") = lit "https://a//b".
Proof. vm_compute. reflexivity. Qed.

(** ** The session token in a payload *)

Lemma get_own_set_prop_ne {V} k k' (v : V) o :
  k' <> k -> get_own k' (set_prop k v o) = get_own k' o.
Proof.
  intros Hne. induction o as [|[k0 v0] o IH]; cbn [set_prop get_own].
  - unfold jsstring_eqb. by rewrite bool_decide_eq_false_2.
  - destruct (jsstring_eqb k k0) eqn:Hk; cbn [get_own]; [|by rewrite IH].
    unfold jsstring_eqb in *. apply bool_decide_eq_true_1 in Hk as <-.
    by rewrite !bool_decide_eq_false_2.
Qed.

Lemma Object_keys_set_prop {V} k (v : V) o :
  Object_keys (set_prop k v o)
  = match get_own k o with
    | Some _ => Object_keys o
    | None => Object_keys o ++ [k]
    end.
Proof.
  induction o as [|[k0 v0] o IH]; cbn [set_prop get_own]; [done|].
  destruct (jsstring_eqb k k0) eqn:Hk.
  - unfold jsstring_eqb in Hk. by apply bool_decide_eq_true_1 in Hk as <-.
  - unfold Object_keys in *. simpl. rewrite IH. by destruct (get_own k o).
Qed.

(** X2.  [makePayloadWithAuthenticationSessionToken] leaves every other field
    of the payload as it is; a held session overrides a session-token
    field that the payload brings along, in its place, and adds the field
    last otherwise; without a session the payload is returned as given. *)
Theorem makePayload_keeps_the_payload (c : Client) (payload : JSObject) :
  (forall k, k <> lit "authn_session_token" ->
     get_own k (makePayloadWithAuthenticationSessionToken c payload)
     = get_own k payload)
  /\ (_authenticationSession c = None ->
      makePayloadWithAuthenticationSessionToken c payload = payload)
  /\ (forall session, _authenticationSession c = Some session ->
        get_own (lit "authn_session_token")
          (makePayloadWithAuthenticationSessionToken c payload)
        = Some (JString (token session))
        /\ Object_keys (makePayloadWithAuthenticationSessionToken c payload)
           = match get_own (lit "authn_session_token") payload with
             | Some _ => Object_keys payload
             | None => Object_keys payload ++ [lit "authn_session_token"]
             end).
Proof.
  unfold makePayloadWithAuthenticationSessionToken. repeat apply conj.
  - intros k Hk. destruct (_authenticationSession c); [|done].
    by apply get_own_set_prop_ne.
  - by intros ->.
  - intros session ->. split; [apply get_own_set_prop|].
    apply Object_keys_set_prop.
Qed.

Lemma makePayload_keeps_the_payload_witness :
  let c := Scenario.with_session (Some {| token := lit "sess1" |})
             Scenario.configured in
  let payload := [(lit "authn_session_token", JString (lit "forged"));
                  (lit "otp", JString (lit "123456"))] in
  makePayloadWithAuthenticationSessionToken c payload
  = [(lit "authn_session_token", JString (lit "sess1"));
     (lit "otp", JString (lit "123456"))]
  /\ get_own (lit "otp") (makePayloadWithAuthenticationSessionToken c payload)
     = get_own (lit "otp") payload.
Proof.
  intros c payload. split; [vm_compute; reflexivity|].
  apply (makePayload_keeps_the_payload c payload). discriminate.
Defined.

(** ** Login identifiers at signup *)

Lemma login_id_pairs_unique (o : JSObject) :
  NoDup (Object_keys o) -> login_id_pairs o = map key_value o.
Proof.
  unfold login_id_pairs, Object_keys.
  assert (H : forall o' : JSObject,
             (forall k v, In (k, v) o' -> get_own k o = Some v) ->
             map (fun key => key_value
                    (key, default JUndefined (get_own key o))) (map fst o')
             = map key_value o').
  { induction o' as [|[k v] o' IH]; intros Hget; simpl; [done|].
    rewrite (Hget k v) by by left. simpl.
    f_equal. apply IH. intros k' v' Hin. apply Hget. by right. }
  intros Hnodup. apply H. clear H.
  induction o as [|[k v] o IH]; [done|].
  apply NoDup_cons in Hnodup as [Hk Hnodup].
  intros k' v' [[= <- <-]|Hin]; cbn [get_own].
  - by rewrite jsstring_eqb_refl.
  - unfold jsstring_eqb. rewrite bool_decide_eq_false_2; [by apply IH|].
    intros ->. apply Hk. apply list_elem_of_In.
    by apply (in_map fst) in Hin.
Qed.


(** ** The pipeline once more *)

Ltac unfold_more :=
  unfold setEndpoint, _fetchOIDCConfiguration, _fetchJSON, signup, login,
    logout, me, oauthAuthorizationURL, oauthHandler;
  unfold _fetch, postAndReturnAuthResponse.

Lemma gearEndpoint_derived p rest g :
  no_dollar g -> In p endpoint_prefixes -> one_line rest ->
  _gearEndpoint (p ++ rest) g = Resolved (p ++ g ++ lit "." ++ rest).
Proof.
  intros Hg Hp Hrest. unfold _gearEndpoint, replace_endpoint.
  rewrite match_endpoint_prefix by done.
  rewrite gear_template_expands by done.
  unfold jsstring_eqb. rewrite bool_decide_eq_false_2; [done|].
  intros Heq. apply app_inv_head in Heq.
  apply (f_equal length) in Heq. rewrite !length_app in Heq.
  simpl in Heq. lia.
Qed.

Lemma no_dollar_gears :
  no_dollar (lit "accounts") /\ no_dollar (lit "assets").
Proof.
  split; unfold no_dollar; vm_compute lit;
    repeat (constructor; [discriminate|]); constructor.
Qed.

Lemma gearEndpoint_rejects E g :
  (forall p rest, In p endpoint_prefixes -> E = p ++ rest -> ~ one_line rest) ->
  _gearEndpoint E g = Rejected (Error (lit "invalid app endpoint")).
Proof.
  intros Hnone. unfold _gearEndpoint, replace_endpoint.
  destruct (match_endpoint E) as [[p rest]|] eqn:Hm.
  - apply match_endpoint_with_Some in Hm as (Hp & HE & Hr).
    by destruct (Hnone p rest Hp HE).
  - unfold jsstring_eqb. by rewrite bool_decide_eq_true_2.
Qed.

Lemma oauth_path_login encoded :
  oauth_path encoded (JString (lit "login"))
  = Some (lit "/_auth/sso/" ++ encoded ++ lit "/login_auth_url").
Proof. reflexivity. Qed.

Lemma oauth_path_link encoded :
  oauth_path encoded (JString (lit "link"))
  = Some (lit "/_auth/sso/" ++ encoded ++ lit "/link_auth_url").
Proof. reflexivity. Qed.

Section FurtherPipelineProperties.
Context {World AuthResponse Authenticator : Type}.
Variable JSON_stringify : JSValue -> jsstring.
Variable _encodeBase64FromString : jsstring -> jsstring.
Variable encodeQuery : list (jsstring * jsstring) -> jsstring.
Variable decodeError : JSValue -> JSError.
Variable decodeAuthResponse : JSValue -> Outcome AuthResponse.
Variable decodeAuthenticator : JSValue -> Outcome Authenticator.
Variable json_rejection : Response -> JSError.
Variable encodeURIComponent : JSValue -> Outcome jsstring.
Variable window_location_href : World -> option jsstring.
Variable caps : @Capabilities World.

Local Abbreviation prepareHeaders :=
  (prepareHeaders JSON_stringify _encodeBase64FromString caps).
Local Abbreviation fetch :=
  (fetch JSON_stringify _encodeBase64FromString caps).
Local Abbreviation request :=
  (request JSON_stringify _encodeBase64FromString encodeQuery decodeError
     caps).
Local Abbreviation post :=
  (post JSON_stringify _encodeBase64FromString encodeQuery decodeError caps).
Local Abbreviation get :=
  (get JSON_stringify _encodeBase64FromString encodeQuery decodeError caps).
Local Abbreviation postAndReturnAuthResponse :=
  (postAndReturnAuthResponse JSON_stringify _encodeBase64FromString
     encodeQuery decodeError caps decodeAuthResponse).
Local Abbreviation first_request cls σ input init headers :=
  (set_headers headers (Request_new cls (fetch_url (client σ) input) init)).

Implicit Types (σ : @State World) (q : Request) (t : list Event).

(** *** Header preparation *)

(** The four names that [prepareHeaders] may set. *)
Local Abbreviation api_key := (lit "x-skygear-api-key").
Local Abbreviation authorization := (lit "authorization").
Local Abbreviation user_agent := (lit "user-agent").
Local Abbreviation extra_info := (lit "x-skygear-extra-info").

(** X3.  [prepareHeaders] rejects exactly when the supplier of extra session
    info rejects, and else gives these headers and no other: the API key
    always; the bearer authorization for a non-empty access token; the
    user agent when one is set; the encoded extra session info when a
    supplier is configured and resolves to a truthy value.  The client
    fields are those at the start of the call. *)
Theorem prepareHeaders_headers σ :
  let supplied :=
    match getExtraSessionInfo caps with
    | Some supplier => Some (supplier σ)
    | None => None
    end in
  match supplied with
  | Some (Rejected e, σ') => prepareHeaders σ = (Rejected e, σ', [])
  | _ =>
      exists h,
        prepareHeaders σ
        = (Resolved h, match supplied with Some (_, σ') => σ' | None => σ end,
           [])
        /\ h !! api_key = Some (apiKey (client σ))
        /\ h !! authorization
           = match _accessToken (client σ) with
             | Some tok =>
                 if jsstring_eqb tok [] then None
                 else Some (lit "bearer " ++ tok)
             | None => None
             end
        /\ h !! user_agent = userAgent (client σ)
        /\ h !! extra_info
           = match supplied with
             | Some (Resolved info, _) =>
                 if truthy info
                 then Some (_encodeBase64FromString (JSON_stringify info))
                 else None
             | _ => None
             end
        /\ forall k, k <> api_key -> k <> authorization ->
             k <> user_agent -> k <> extra_info -> h !! k = None
  end.
Proof.
  intros supplied.
  set (h1 := ({[api_key := apiKey (client σ)]} : gmap jsstring jsstring)).
  set (h2 := match _accessToken (client σ) with
             | Some tok =>
                 if truthy (JString tok)
                 then <[authorization := lit "bearer " ++ tok]> h1 else h1
             | None => h1
             end).
  set (h3 := match userAgent (client σ) with
             | Some ua => <[user_agent := ua]> h2
             | None => h2
             end).
  assert (H3 : h3 !! api_key = Some (apiKey (client σ))
               /\ h3 !! authorization
                  = match _accessToken (client σ) with
                    | Some tok =>
                        if jsstring_eqb tok [] then None
                        else Some (lit "bearer " ++ tok)
                    | None => None
                    end
               /\ h3 !! user_agent = userAgent (client σ)
               /\ h3 !! extra_info = None
               /\ forall k, k <> api_key -> k <> authorization ->
                    k <> user_agent -> k <> extra_info -> h3 !! k = None).
  { unfold h3, h2, h1.
    destruct (userAgent (client σ)) as [ua|],
      (_accessToken (client σ)) as [tok|];
      cbn [truthy]; try destruct (jsstring_eqb tok []); cbn [negb];
      repeat apply conj; try intros k ? ? ? ?;
      repeat first
        [ rewrite lookup_insert_eq
        | rewrite lookup_insert_ne by (done || by vm_compute)
        | rewrite lookup_singleton_eq
        | rewrite lookup_singleton_ne by (done || by vm_compute) ];
      done. }
  destruct H3 as (Hkey & Hauth & Hagent & Hextra & Hother).
  assert (Hrun : prepareHeaders σ
                 = match getExtraSessionInfo caps with
                   | Some supplier =>
                       match supplier σ with
                       | (Resolved info, σ') =>
                           (Resolved
                              (if truthy info
                               then <[extra_info :=
                                        _encodeBase64FromString
                                          (JSON_stringify info)]> h3
                               else h3), σ', [])
                       | (Rejected e, σ') => (Rejected e, σ', [])
                       end
                   | None => (Resolved h3, σ, [])
                   end).
  { unfold_prepareHeaders. rewrite run_this. fold h1. fold h2. fold h3.
    destruct (getExtraSessionInfo caps) as [supplier|]; [|done].
    rewrite run_await. destruct (supplier σ) as [[info|e] σ']; [|done].
    by destruct (truthy info). }
  rewrite Hrun. unfold supplied.
  destruct (getExtraSessionInfo caps) as [supplier|].
  - destruct (supplier σ) as [[info|e] σ']; [|done].
    eexists. split; [done|]. destruct (truthy info).
    + repeat apply conj; try intros k ? ? ? ?;
        first [ by rewrite lookup_insert_eq
              | rewrite lookup_insert_ne by (done || by vm_compute) ];
        auto.
    + auto 10.
  - eexists. split; [done|]. auto 10.
Qed.

Lemma prepared_headers_domain σ h σ' t :
  prepareHeaders σ = (Resolved h, σ', t) ->
  is_Some (h !! api_key)
  /\ forall k, k <> api_key -> k <> authorization ->
       k <> user_agent -> k <> extra_info -> h !! k = None.
Proof.
  unfold_prepareHeaders. rewrite run_this.
  set (h1 := ({[api_key := apiKey (client σ)]} : gmap jsstring jsstring)).
  set (h2 := match _accessToken (client σ) with
             | Some tok =>
                 if truthy (JString tok)
                 then <[authorization := lit "bearer " ++ tok]> h1 else h1
             | None => h1
             end).
  set (h3 := match userAgent (client σ) with
             | Some ua => <[user_agent := ua]> h2
             | None => h2
             end).
  assert (H3 : is_Some (h3 !! api_key)
               /\ forall k, k <> api_key -> k <> authorization ->
                    k <> user_agent -> k <> extra_info -> h3 !! k = None).
  { unfold h3, h2, h1.
    destruct (userAgent (client σ)) as [ua|],
      (_accessToken (client σ)) as [tok|];
      try destruct (truthy (JString tok));
      (split; [|intros k ? ? ? ?]);
      repeat first
        [ rewrite lookup_insert_ne by (done || by vm_compute)
        | rewrite lookup_singleton_eq
        | rewrite lookup_singleton_ne by (done || by vm_compute) ];
      done. }
  clearbody h3. clear h1 h2. destruct H3 as [Hkey Hother].
  destruct (getExtraSessionInfo caps) as [supplier|].
  - rewrite run_await. destruct (supplier σ) as [[info|e] σ'']; [|done].
    destruct (truthy info); intros [= <- _ _]; [|done].
    split.
    + by rewrite lookup_insert_ne by by vm_compute.
    + intros k ? ? ? ?. rewrite lookup_insert_ne by done. auto.
  - by intros [= <- _ _].
Qed.

(** *** What [fetch] does besides the retry *)

(** The run of [fetch] from the point where the first exchange has
    resolved. *)
Lemma fetch_after_first_exchange
    input init option σ transport cls h1 σa r1 σ1 :
  fetchFunction caps = Some transport ->
  requestClass caps = Some cls ->
  prepareHeaders σ = (Resolved h1, σa, []) ->
  transport (first_request cls σ input init h1) σa = (Resolved r1, σ1) ->
  fetch input init option σ
  = after [Exchange (first_request cls σ input init h1)]
      ((if shouldRefreshToken r1 && autoRefreshToken_or_default caps option
        then
          match refreshTokenFunction caps with
          | None =>
              throw (Error (lit "missing refreshTokenFunction in api client"))
          | Some refresher =>
              tokenRefreshed ← await refresher [RefreshCall];
              if tokenRefreshed : bool then
                headers ← prepareHeaders;
                await (transport
                         (set_headers headers
                            (first_request cls σ input init h1)))
                  [Exchange (set_headers headers
                               (first_request cls σ input init h1))]
              else mret r1
          end
        else mret r1) σ1).
Proof.
  intros Hf Hc Hp1 Ht1. unfold_fetch. rewrite Hf, Hc, run_this.
  rewrite run_bind, Hp1, after_nil. unfold clone.
  by rewrite run_await, Ht1.
Qed.

(** X4.  A response without the stale-token header, or any response when
    [autoRefreshToken] is off, ends the call: one exchange, no call of the
    refresh capability, and the response handed back as it came. *)
Theorem fetch_single_exchange
    input init option σ transport cls h1 σa r1 σ1 :
  fetchFunction caps = Some transport ->
  requestClass caps = Some cls ->
  prepareHeaders σ = (Resolved h1, σa, []) ->
  transport (first_request cls σ input init h1) σa = (Resolved r1, σ1) ->
  shouldRefreshToken r1 = false
  \/ autoRefreshToken_or_default caps option = false ->
  fetch input init option σ
  = (Resolved r1, σ1, [Exchange (first_request cls σ input init h1)]).
Proof.
  intros Hf Hc Hp1 Ht1 Hoff.
  rewrite (fetch_after_first_exchange _ _ _ _ _ _ _ _ _ _ Hf Hc Hp1 Ht1).
  by destruct Hoff as [-> | ->]; rewrite ?andb_false_r.
Qed.

(** X5.  Without a refresh capability a stale-token response is handed back
    like any other, unless the caller asked for [autoRefreshToken]
    explicitly: then the call rejects for the missing capability, after
    the exchange has been made. *)
Theorem fetch_without_refresh_capability
    input init option σ transport cls h1 σa r1 σ1 :
  fetchFunction caps = Some transport ->
  requestClass caps = Some cls ->
  refreshTokenFunction caps = None ->
  prepareHeaders σ = (Resolved h1, σa, []) ->
  transport (first_request cls σ input init h1) σa = (Resolved r1, σ1) ->
  shouldRefreshToken r1 = true ->
  fetch input init option σ
  = (if bool_decide (option = Some true)
     then Rejected (Error (lit "missing refreshTokenFunction in api client"))
     else Resolved r1,
     σ1, [Exchange (first_request cls σ input init h1)]).
Proof.
  intros Hf Hc Hr Hp1 Ht1 Hstale.
  rewrite (fetch_after_first_exchange _ _ _ _ _ _ _ _ _ _ Hf Hc Hp1 Ht1).
  rewrite Hstale, Hr. unfold autoRefreshToken_or_default. rewrite Hr.
  destruct option as [[|]|]; simpl; try done.
Qed.

(** X6.  [fetch] hands on the rejection of a capability as it is: of the
    header preparation before anything is sent, of the transport after
    the exchange, of the refresh capability after the exchange and the
    refresh call. *)
Theorem fetch_hands_on_rejections input init option σ transport cls :
  fetchFunction caps = Some transport ->
  requestClass caps = Some cls ->
  (forall e σa,
     prepareHeaders σ = (Rejected e, σa, []) ->
     fetch input init option σ = (Rejected e, σa, []))
  /\ (forall h1 σa e σ1,
        prepareHeaders σ = (Resolved h1, σa, []) ->
        transport (first_request cls σ input init h1) σa
        = (Rejected e, σ1) ->
        fetch input init option σ
        = (Rejected e, σ1, [Exchange (first_request cls σ input init h1)]))
  /\ (forall h1 σa r1 σ1 refresher e σ2,
        prepareHeaders σ = (Resolved h1, σa, []) ->
        transport (first_request cls σ input init h1) σa
        = (Resolved r1, σ1) ->
        shouldRefreshToken r1 = true ->
        autoRefreshToken_or_default caps option = true ->
        refreshTokenFunction caps = Some refresher ->
        refresher σ1 = (Rejected e, σ2) ->
        fetch input init option σ
        = (Rejected e, σ2,
           [Exchange (first_request cls σ input init h1); RefreshCall])).
Proof.
  intros Hf Hc. repeat apply conj.
  - intros e σa Hp1. unfold_fetch. rewrite Hf, Hc, run_this.
    by rewrite run_bind, Hp1.
  - intros h1 σa e σ1 Hp1 Ht1. unfold_fetch. rewrite Hf, Hc, run_this.
    rewrite run_bind, Hp1, after_nil. unfold clone.
    by rewrite run_await, Ht1.
  - intros h1 σa r1 σ1 refresher e σ2 Hp1 Ht1 Hstale Hauto Hr Href.
    rewrite (fetch_after_first_exchange _ _ _ _ _ _ _ _ _ _ Hf Hc Hp1 Ht1).
    rewrite Hstale, Hauto, Hr. cbn [andb].
    by rewrite run_await, Href.
Qed.

(** X7.  A client without transport or without request class: [request], and
    with it every operation, rejects at once, the transport missing
    being reported first; nothing is sent and the state stays. *)
Theorem request_unconfigured method path options σ :
  (fetchFunction caps = None ->
   request method path options σ
   = (Rejected (Error (lit "missing fetchFunction in api client")), σ, []))
  /\ (is_Some (fetchFunction caps) -> requestClass caps = None ->
      request method path options σ
      = (Rejected (Error (lit "missing requestClass in api client")), σ, [])).
Proof.
  split.
  - intros Hf. unfold_request. rewrite run_bind. unfold_fetch.
    by rewrite Hf.
  - intros [f Hf] Hc. unfold_request. rewrite run_bind. unfold_fetch.
    by rewrite Hf, Hc.
Qed.

(** *** Invariants *)

Implicit Types (P : @State World -> Prop).

Local Abbreviation capabilities_preserve := (capabilities_preserve caps).

Lemma preserves_bind {A B} P (m : Async A) (k : A -> Async B) :
  preserves P m -> (forall a, preserves P (k a)) ->
  preserves P (m ≫= k).
Proof.
  intros Hm Hk s Hs. rewrite run_bind. specialize (Hm s Hs).
  destruct (m s) as [[[a|e] s'] t]; [|done].
  specialize (Hk a s' Hm). by destruct (k a s') as [[o s''] t'].
Qed.

Lemma preserves_quiet {A} P (o : Outcome A) :
  preserves P (settle o).
Proof. by intros s Hs. Qed.

Lemma preserves_await {A} P (f : State -> Outcome A * State) ev :
  (forall s, P s -> P (f s).2) -> preserves P (await f ev).
Proof.
  intros Hf s Hs. unfold await. specialize (Hf s Hs).
  by destruct (f s) as [o s'].
Qed.

Lemma prepareHeaders_preserves P :
  capabilities_preserve P -> preserves P prepareHeaders.
Proof.
  intros (_ & _ & Hsupplier). unfold_prepareHeaders.
  apply preserves_bind; [by intros s Hs|]. intros c.
  destruct (getExtraSessionInfo caps) as [supplier|] eqn:Hs;
    [|by intros s Hs'].
  apply preserves_bind; [apply preserves_await; eauto|].
  intros info. by destruct (truthy info); intros s Hs'.
Qed.

Lemma fetch_preserves P input init option :
  capabilities_preserve P -> preserves P (fetch input init option).
Proof.
  intros HP. pose proof HP as (Htransport & Hrefresh & _). unfold_fetch.
  destruct (fetchFunction caps) as [transport|]; [|by intros s Hs].
  destruct (requestClass caps) as [cls|]; [|by intros s Hs].
  apply preserves_bind; [by intros s Hs|]. intros c.
  apply preserves_bind; [by apply prepareHeaders_preserves|]. intros h1.
  apply preserves_bind; [apply preserves_await; eauto|]. intros r1.
  destruct (shouldRefreshToken r1 && _); [|by intros s Hs].
  destruct (refreshTokenFunction caps) as [refresher|]; [|by intros s Hs].
  apply preserves_bind; [apply preserves_await; eauto|]. intros [|];
    [|by intros s Hs].
  apply preserves_bind; [by apply prepareHeaders_preserves|]. intros h2.
  apply preserves_await; eauto.
Qed.

Lemma request_preserves P method path options :
  capabilities_preserve P -> preserves P (request method path options).
Proof.
  intros HP. unfold_request.
  apply preserves_bind; [by apply fetch_preserves|].
  intros response. apply preserves_quiet.
Qed.

(** X8.  The pipeline writes no state of its own: whatever the configured
    capabilities keep invariant, [fetch], [request] and the operations
    built on them keep too, whether they resolve or reject.  So a login
    or signup that succeeds does not store the access token it
    receives. *)
Theorem pipeline_keeps_invariants P :
  capabilities_preserve P ->
  (forall input init option, preserves P (fetch input init option))
  /\ (forall method path options,
        preserves P (request method path options))
  /\ (forall loginID password options,
        preserves P
          (login JSON_stringify _encodeBase64FromString encodeQuery
             decodeError caps decodeAuthResponse loginID password options))
  /\ (forall loginIDs password options,
        preserves P
          (signup JSON_stringify _encodeBase64FromString encodeQuery
             decodeError caps decodeAuthResponse loginIDs password options))
  /\ (forall options,
        preserves P
          (authenticateWithTOTP JSON_stringify _encodeBase64FromString
             encodeQuery decodeError caps decodeAuthResponse options)).
Proof.
  intros HP. repeat apply conj; intros.
  - by apply fetch_preserves.
  - by apply request_preserves.
  - unfold_more. apply preserves_bind; [by apply request_preserves|].
    intros response. apply preserves_quiet.
  - unfold_more. apply preserves_bind; [by apply request_preserves|].
    intros response. apply preserves_quiet.
  - unfold_operations. apply preserves_bind; [by intros s Hs|]. intros c.
    apply preserves_bind; [by apply request_preserves|].
    intros response. apply preserves_quiet.
Qed.

(** *** The requests of a call *)

Lemma Request_new_fields cls url init :
  let q0 := Request_new cls url init in
  req_mode q0 = from_option init_mode (lit "cors") init
  /\ req_credentials q0
     = from_option init_credentials (lit "same-origin") init
  /\ req_headers q0 = from_option init_headers ∅ init.
Proof. by destruct init. Qed.

(** Each request of a call has the mode and the credentials of its
    [init], an API key header, and beside the four prepared headers those
    of its [init]. *)
Lemma fetch_exchange_headers input init option σ q :
  In (Exchange q) (events (fetch input init option σ)) ->
  req_mode q = from_option init_mode (lit "cors") init
  /\ req_credentials q = from_option init_credentials (lit "same-origin") init
  /\ is_Some (req_headers q !! api_key)
  /\ forall k, k <> api_key -> k <> authorization ->
       k <> user_agent -> k <> extra_info ->
       req_headers q !! k = from_option init_headers ∅ init !! k.
Proof.
  assert (Hfirst : forall cls h1 σa t,
    prepareHeaders σ = (Resolved h1, σa, t) ->
    let q1 := first_request cls σ input init h1 in
    req_mode q1 = from_option init_mode (lit "cors") init
    /\ req_credentials q1
       = from_option init_credentials (lit "same-origin") init
    /\ is_Some (req_headers q1 !! api_key)
    /\ forall k, k <> api_key -> k <> authorization ->
         k <> user_agent -> k <> extra_info ->
         req_headers q1 !! k = from_option init_headers ∅ init !! k).
  { intros cls h1 σa t Hp1 q1.
    destruct (prepared_headers_domain _ _ _ _ Hp1) as [Hkey Hother].
    destruct (Request_new_fields cls (fetch_url (client σ) input) init)
      as (Hm & Hc & Hh).
    unfold q1. cbn [set_headers req_mode req_credentials req_headers].
    split; [done|]. split; [done|]. split.
    - apply lookup_union_is_Some. by left.
    - intros k ? ? ? ?. rewrite lookup_union_r by auto. by rewrite Hh. }
  assert (Hsecond : forall cls h1 σa t h2 σ2 σb t',
    prepareHeaders σ = (Resolved h1, σa, t) ->
    prepareHeaders σ2 = (Resolved h2, σb, t') ->
    let q2 := set_headers h2 (first_request cls σ input init h1) in
    req_mode q2 = from_option init_mode (lit "cors") init
    /\ req_credentials q2
       = from_option init_credentials (lit "same-origin") init
    /\ is_Some (req_headers q2 !! api_key)
    /\ forall k, k <> api_key -> k <> authorization ->
         k <> user_agent -> k <> extra_info ->
         req_headers q2 !! k = from_option init_headers ∅ init !! k).
  { intros cls h1 σa t h2 σ2 σb t' Hp1 Hp2 q2.
    destruct (Hfirst cls h1 σa t Hp1) as (Hm & Hc & _ & Hrest).
    destruct (prepared_headers_domain _ _ _ _ Hp2) as [Hkey Hother].
    unfold q2.
    cbn [set_headers req_mode req_credentials req_headers] in *.
    split; [done|]. split; [done|]. split.
    - apply lookup_union_is_Some. by left.
    - intros k ? ? ? ?. rewrite lookup_union_r by auto. auto. }
  unfold_fetch.
  destruct (fetchFunction caps) as [transport|]; [|done].
  destruct (requestClass caps) as [cls|]; [|done].
  rewrite run_this, run_bind.
  pose proof (prepareHeaders_quiet JSON_stringify _encodeBase64FromString
                caps σ) as Hq1.
  destruct (prepareHeaders σ) as [[[h1|e] σa] t0] eqn:Hp1; simpl in Hq1;
    subst t0; [|done].
  specialize (Hfirst cls h1 σa [] eq_refl).
  specialize (fun h2 σ2 σb t' => Hsecond cls h1 σa [] h2 σ2 σb t' eq_refl).
  rewrite after_nil, run_await. unfold clone.
  destruct (transport _ σa) as [[r1|e] σ1];
    [|by intros [[= <-]|[]]].
  destruct (shouldRefreshToken r1 && _);
    [|by intros [[= <-]|[]]].
  destruct (refreshTokenFunction caps) as [refresher|];
    [|by intros [[= <-]|[]]].
  rewrite run_await.
  destruct (refresher σ1) as [[[|]|e] σ2];
    [|by intros [[= <-]|[[=]|[]]]..].
  rewrite run_bind.
  pose proof (prepareHeaders_quiet JSON_stringify _encodeBase64FromString
                caps σ2) as Hq2.
  destruct (prepareHeaders σ2) as [[[h2|e] σb] t0] eqn:Hp2; simpl in Hq2;
    subst t0; [|by intros [[= <-]|[[=]|[]]]].
  rewrite after_nil. unfold await.
  destruct (transport _ σb) as [o σc].
  intros [[= <-]|[[=]|[[= <-]|[]]]]; [done|]. by eapply Hsecond.
Qed.

(** X9.  A retry replays the request: all exchanges of one call of [fetch] go
    to the same URL with the same method and the same body. *)
Theorem fetch_replays_the_request input init option σ q q' :
  In (Exchange q) (events (fetch input init option σ)) ->
  In (Exchange q') (events (fetch input init option σ)) ->
  req_url q = req_url q' /\ req_method q = req_method q'
  /\ req_body q = req_body q'.
Proof.
  intros Hq Hq'.
  apply (fetch_exchange_request JSON_stringify _encodeBase64FromString)
    in Hq as (-> & -> & ->).
  by apply (fetch_exchange_request JSON_stringify _encodeBase64FromString)
    in Hq' as (-> & -> & ->).
Qed.

Lemma prepared_headers_values σ h σ' t :
  prepareHeaders σ = (Resolved h, σ', t) ->
  h !! api_key = Some (apiKey (client σ))
  /\ h !! authorization
     = match _accessToken (client σ) with
       | Some tok =>
           if jsstring_eqb tok [] then None else Some (lit "bearer " ++ tok)
       | None => None
       end
  /\ h !! user_agent = userAgent (client σ).
Proof.
  unfold_prepareHeaders. rewrite run_this.
  set (h1 := ({[api_key := apiKey (client σ)]} : gmap jsstring jsstring)).
  set (h2 := match _accessToken (client σ) with
             | Some tok =>
                 if truthy (JString tok)
                 then <[authorization := lit "bearer " ++ tok]> h1 else h1
             | None => h1
             end).
  set (h3 := match userAgent (client σ) with
             | Some ua => <[user_agent := ua]> h2
             | None => h2
             end).
  assert (H3 : h3 !! api_key = Some (apiKey (client σ))
               /\ h3 !! authorization
                  = match _accessToken (client σ) with
                    | Some tok =>
                        if jsstring_eqb tok [] then None
                        else Some (lit "bearer " ++ tok)
                    | None => None
                    end
               /\ h3 !! user_agent = userAgent (client σ)).
  { unfold h3, h2, h1.
    destruct (userAgent (client σ)) as [ua|],
      (_accessToken (client σ)) as [tok|];
      cbn [truthy]; try destruct (jsstring_eqb tok []); cbn [negb];
      repeat apply conj;
      repeat first
        [ rewrite lookup_insert_eq
        | rewrite lookup_insert_ne by (done || by vm_compute)
        | rewrite lookup_singleton_eq
        | rewrite lookup_singleton_ne by (done || by vm_compute) ];
      done. }
  clearbody h3. clear h1 h2.
  destruct H3 as (Hkey & Hauth & Hagent).
  destruct (getExtraSessionInfo caps) as [supplier|].
  - rewrite run_await. destruct (supplier σ) as [[info|e] σ'']; [|done].
    destruct (truthy info); intros [= <- _ _]; [|done].
    repeat apply conj; by rewrite lookup_insert_ne by by vm_compute.
  - by intros [= <- _ _].
Qed.

(** X10.  When [fetch] retries, the headers of the retried request are
    those of the second header preparation, made at the state that the
    refresh capability left, laid over those of the first request: a
    name that the second preparation sets has its new value, every other
    name has the value it had in the first request, so no header is
    dropped.  The API key is the one of the client at that state; the
    authorization is the bearer of its access token when that is not
    empty and the old authorization otherwise; the user agent is the one
    set then, and the old one when none is set; a header of the [init],
    such as the content type, is carried over unchanged. *)
Theorem retry_keeps_headers
    input init option σ transport cls refresher h1 σa r1 σ1 σ2 h2 σb :
  fetchFunction caps = Some transport ->
  requestClass caps = Some cls ->
  refreshTokenFunction caps = Some refresher ->
  autoRefreshToken_or_default caps option = true ->
  prepareHeaders σ = (Resolved h1, σa, []) ->
  transport (first_request cls σ input init h1) σa = (Resolved r1, σ1) ->
  shouldRefreshToken r1 = true ->
  refresher σ1 = (Resolved true, σ2) ->
  prepareHeaders σ2 = (Resolved h2, σb, []) ->
  let q1 := first_request cls σ input init h1 in
  exists q2,
    events (fetch input init option σ)
    = [Exchange q1; RefreshCall; Exchange q2]
    /\ (forall k,
          req_headers q2 !! k
          = match h2 !! k with
            | Some v => Some v
            | None => req_headers q1 !! k
            end)
    /\ (forall k, k <> api_key -> k <> authorization ->
          k <> user_agent -> k <> extra_info ->
          req_headers q2 !! k = req_headers q1 !! k)
    /\ req_headers q2 !! api_key = Some (apiKey (client σ2))
    /\ req_headers q2 !! authorization
       = match _accessToken (client σ2) with
         | Some tok =>
             if jsstring_eqb tok [] then req_headers q1 !! authorization
             else Some (lit "bearer " ++ tok)
         | None => req_headers q1 !! authorization
         end
    /\ req_headers q2 !! user_agent
       = match userAgent (client σ2) with
         | Some ua => Some ua
         | None => req_headers q1 !! user_agent
         end.
Proof.
  intros Hf Hc Hr Hauto Hp1 Ht1 Hstale Href Hp2 q1.
  exists (set_headers h2 q1).
  assert (Hlaid : forall k,
            req_headers (set_headers h2 q1) !! k
            = match h2 !! k with
              | Some v => Some v
              | None => req_headers q1 !! k
              end).
  { intros k. simpl. destruct (h2 !! k) as [v|] eqn:Hk.
    - by apply lookup_union_Some_l.
    - by rewrite lookup_union_r. }
  destruct (prepared_headers_domain _ _ _ _ Hp2) as [_ Hother].
  destruct (prepared_headers_values _ _ _ _ Hp2) as (Hkey & Hauth & Hagent).
  repeat apply conj.
  - by rewrite (fetch_retry_run JSON_stringify _encodeBase64FromString caps
                  input init option σ transport cls refresher
                  h1 σa r1 σ1 σ2 h2 σb).
  - exact Hlaid.
  - intros k ? ? ? ?. by rewrite Hlaid, Hother.
  - by rewrite Hlaid, Hkey.
  - rewrite Hlaid. unfold jsstring in *. rewrite Hauth.
    destruct (_accessToken (client σ2)) as [tok|]; [|done].
    by destruct (jsstring_eqb tok []).
  - rewrite Hlaid. unfold jsstring in *. rewrite Hagent.
    by destruct (userAgent (client σ2)).
Qed.

(** X11.  Every exchange of [request] is made with the method given, in mode
    [cors] with credentials included, with an API key header, with the
    payload as its body, and with the JSON content type exactly when
    there is a payload. *)
Theorem request_exchanges method path options σ q :
  In (Exchange q) (events (request method path options σ)) ->
  req_method q = method
  /\ req_mode q = lit "cors"
  /\ req_credentials q = lit "include"
  /\ req_body q = JSONText <$> json options
  /\ is_Some (req_headers q !! api_key)
  /\ req_headers q !! lit "content-type"
     = (fun _ => lit "application/json") <$> json options.
Proof.
  intros Hq.
  assert (Hev : events (request method path options σ)
                = events (fetch (request_path encodeQuery path options)
                            (Some (request_init method options))
                            (autoRefreshToken options) σ)).
  { unfold_request. by rewrite events_bind_quiet. }
  rewrite Hev in Hq.
  pose proof (fetch_exchange_request JSON_stringify _encodeBase64FromString
                caps _ _ _ _ _ Hq) as (_ & Hm & Hb).
  pose proof (fetch_exchange_headers _ _ _ _ _ Hq)
    as (Hmode & Hcred & Hkey & Hother).
  repeat apply conj; try done.
  rewrite Hother by by vm_compute. simpl.
  destruct (json options); [apply lookup_singleton_eq|apply lookup_empty].
Qed.

(** *** Decoding once more *)

Lemma decode_envelope_truthy body v :
  decode_envelope decodeError body = Resolved v -> truthy v = true.
Proof.
  unfold decode_envelope.
  destruct (get_property body (lit "result")) as [result|e]; [|done].
  destruct (truthy result) eqn:Hr; [by intros [= <-]|].
  destruct (get_property body (lit "error")) as [error|e]; [|done].
  by destruct (truthy error).
Qed.

(** X12.  [request] never resolves to a falsy value: a response whose result
    is [false], zero, the empty string or [null] makes the call reject
    like a response without result. *)
Theorem request_resolves_to_truthy method path options σ v :
  outcome (request method path options σ) = Resolved v -> truthy v = true.
Proof.
  rewrite (run_request JSON_stringify _encodeBase64FromString encodeQuery
             decodeError caps).
  destruct (fetch _ _ _ σ) as [[[response|e] σ'] t]; [|done].
  unfold outcome, decode_response. simpl.
  destruct (resp_json response) as [body|].
  - apply decode_envelope_truthy.
  - by destruct (_ || _).
Qed.

(** X13.  A body that parses to something else than an object: for [null] the
    property read throws and [request] rejects with that [TypeError]; for
    a boolean, a number, a string or an array there is neither result nor
    error and [request] rejects with what [decodeError] makes of no
    argument.  The status plays no part in either case. *)
Theorem request_body_not_an_object method path options σ response σ' t body :
  fetch (request_path encodeQuery path options)
        (Some (request_init method options))
        (autoRefreshToken options) σ = (Resolved response, σ', t) ->
  resp_json response = Some body ->
  match body with
  | JObject _ => True
  | JNull | JUndefined =>
      exists message,
        request method path options σ
        = (Rejected (TypeError message), σ', t)
  | _ =>
      request method path options σ
      = (Rejected (decodeError JUndefined), σ', t)
  end.
Proof.
  intros Hrun Hjson.
  rewrite (run_request JSON_stringify _encodeBase64FromString encodeQuery
             decodeError caps), Hrun.
  unfold decode_response. rewrite Hjson.
  destruct body; try done; by eexists.
Qed.

(** *** Lists of decoded values *)

Lemma map_throwing_Resolved {A B} (f : A -> Outcome B) l ys :
  map_throwing f l = Resolved ys ->
  Forall2 (fun x y => f x = Resolved y) l ys.
Proof.
  revert ys. induction l as [|x l IH]; simpl; intros ys.
  - intros [= <-]. constructor.
  - destruct (f x) as [y|e] eqn:Hx; [|done].
    destruct (map_throwing f l) as [ys'|e]; [|done].
    intros [= <-]. constructor; [done|]. by apply IH.
Qed.

Lemma map_throwing_Rejected {A B} (f : A -> Outcome B) l e :
  map_throwing f l = Rejected e ->
  exists before x after' ys,
    l = before ++ x :: after'
    /\ map_throwing f before = Resolved ys
    /\ f x = Rejected e.
Proof.
  induction l as [|x l IH]; simpl; [done|].
  destruct (f x) as [y|e'] eqn:Hx.
  - destruct (map_throwing f l) as [ys'|e'] eqn:Hl; [done|].
    intros [= ->]. destruct (IH eq_refl) as (b & x' & a & ys & -> & Hb & Hx').
    exists (x :: b), x', a, (y :: ys). simpl. by rewrite Hx, Hb.
  - intros [= ->]. by exists [], x, l, [].
Qed.

(** X14.  [getAuthenticators] decodes all or nothing: it resolves to one
    decoded value for each element of the array in the result, in order,
    and rejects with the error of the first element that does not decode;
    a result without such an array makes it reject with a [TypeError].
    In each case the exchange has been made. *)
Theorem getAuthenticators_decodes_all_or_nothing σ response σ' t :
  post (lit "/_auth/mfa/authenticator/list")
    (with_json (makePayloadWithAuthenticationSessionToken (client σ) [])) σ
  = (Resolved response, σ', t) ->
  let run :=
    getAuthenticators JSON_stringify _encodeBase64FromString encodeQuery
      decodeError caps decodeAuthenticator σ in
  final run = σ' /\ events run = t
  /\ match result_field response "authenticators" with
     | JArray l =>
         (forall ys, outcome run = Resolved ys ->
            Forall2 (fun x y => decodeAuthenticator x = Resolved y) l ys)
         /\ (forall e, outcome run = Rejected e ->
              exists before x after' ys,
                l = before ++ x :: after'
                /\ Forall2 (fun x y => decodeAuthenticator x = Resolved y)
                     before ys
                /\ decodeAuthenticator x = Rejected e)
     | _ => exists message, outcome run = Rejected (TypeError message)
     end.
Proof.
  intros Hpost run.
  assert (Hrun : run
                 = match result_field response "authenticators" with
                   | JArray l => (map_throwing decodeAuthenticator l, σ', t)
                   | _ => (Rejected (TypeError (lit "map is not a function")),
                           σ', t)
                   end).
  { unfold run. unfold_operations. rewrite run_this. cbv zeta.
    rewrite run_bind, Hpost.
    destruct (result_field response "authenticators");
      unfold throw, settle, after; simpl; by rewrite ?app_nil_r. }
  rewrite Hrun.
  destruct (result_field response "authenticators") as [| | | | |l|];
    try (split; [done|]; split; [done|]; by eexists).
  split; [done|]. split; [done|]. unfold outcome. simpl. split.
  - intros ys. apply map_throwing_Resolved.
  - intros e He.
    destruct (map_throwing_Rejected _ _ _ He)
      as (b & x & a & ys & -> & Hb & Hx).
    exists b, x, a, ys. split; [done|]. split; [|done].
    by apply map_throwing_Resolved.
Qed.

(** *** Login identifiers once more *)

(** X15.  [updateLoginID] looks at the old identifier first: when that has not
    exactly one key the error names the old login ID, whatever the new
    one is; the error names the new login ID only when the old one is
    fine.  [addLoginID] and [removeLoginID] share one message. *)
Theorem login_id_errors σ (oldLoginID newLoginID : JSObject) :
  (length (Object_keys oldLoginID) <> 1%nat ->
   updateLoginID JSON_stringify _encodeBase64FromString encodeQuery
     decodeError caps decodeAuthResponse oldLoginID newLoginID σ
   = (Rejected (Error (lit "must provide exactly one old login ID")), σ, []))
  /\ (length (Object_keys oldLoginID) = 1%nat ->
      length (Object_keys newLoginID) <> 1%nat ->
      updateLoginID JSON_stringify _encodeBase64FromString encodeQuery
        decodeError caps decodeAuthResponse oldLoginID newLoginID σ
      = (Rejected (Error (lit "must provide exactly one new login ID")),
         σ, []))
  /\ (length (Object_keys oldLoginID) <> 1%nat ->
      removeLoginID JSON_stringify _encodeBase64FromString encodeQuery
        decodeError caps oldLoginID σ
      = (Rejected (Error (lit "must provide exactly one login ID")), σ, [])
      /\ forall good bad,
           Forall (fun o => length (Object_keys o) = 1%nat) good ->
           addLoginID JSON_stringify _encodeBase64FromString encodeQuery
             decodeError caps (good ++ oldLoginID :: bad) σ
           = (Rejected (Error (lit "must provide exactly one login ID")),
              σ, [])).
Proof.
  repeat apply conj.
  - intros Hold. unfold_operations.
    by rewrite run_settle, extractSingleKeyValue_rejects.
  - intros Hold Hnew. unfold_operations.
    destruct (single_key _ Hold) as (k & v & ->).
    rewrite run_settle, extractSingleKeyValue_single.
    by rewrite run_settle, extractSingleKeyValue_rejects.
  - intros Hold. split.
    + unfold_operations.
      by rewrite run_settle, extractSingleKeyValue_rejects.
    + intros good bad Hgood. unfold_operations. rewrite run_settle.
      assert (Hmap : map_throwing
                (fun loginID =>
                   match extractSingleKeyValue loginID
                           (lit "must provide exactly one login ID") with
                   | Resolved kv => Resolved (key_value kv)
                   | Rejected e => Rejected e
                   end) (good ++ oldLoginID :: bad)
                = Rejected (Error (lit "must provide exactly one login ID"))).
      { induction Hgood as [|o good Ho _ IH]; simpl.
        - by rewrite extractSingleKeyValue_rejects.
        - destruct (single_key _ Ho) as (k & v & ->).
          rewrite extractSingleKeyValue_single. by rewrite IH. }
      by rewrite Hmap.
Qed.

(** *** Signup and login *)

Local Abbreviation signup :=
  (signup JSON_stringify _encodeBase64FromString encodeQuery decodeError
     caps decodeAuthResponse).
Local Abbreviation login :=
  (login JSON_stringify _encodeBase64FromString encodeQuery decodeError
     caps decodeAuthResponse).
Local Abbreviation addLoginID :=
  (addLoginID JSON_stringify _encodeBase64FromString encodeQuery
     decodeError caps).

Lemma post_payload_of_events {A} (m : Async A) σ path payload q :
  events (m σ) = events (post path (with_json payload) σ) ->
  In (Exchange q) (events (m σ)) ->
  req_body q = Some (JSONText payload).
Proof.
  intros ->. apply post_exchange_payload.
Qed.

(** X16.  [signup] takes the identifiers as they come: one object or a
    one-element array of it are the same call; an object with several
    keys counts as that many identifiers, the same as an array of
    one-key objects; and for one-key objects each identifier is sent as
    an object with the two fields [key] and [value], holding the key as
    a string and its value, the same entries that [addLoginID] sends. *)
Theorem signup_flattens_login_ids σ password options :
  (forall obj,
     signup (inl [obj]) password options σ
     = signup (inr obj) password options σ)
  /\ (forall obj,
        NoDup (Object_keys obj) ->
        signup (inr obj) password options σ
        = signup (inl (map (fun kv => [kv]) obj)) password options σ)
  /\ (forall (pairs : list (jsstring * JSValue)) q q',
        In (Exchange q)
           (events (signup (inl (map (fun kv => [kv]) pairs)) password
                      options σ)) ->
        In (Exchange q')
           (events (addLoginID (map (fun kv => [kv]) pairs) σ)) ->
        let entries :=
          map (fun kv => JObject [(lit "key", JString kv.1);
                                  (lit "value", kv.2)]) pairs in
        req_body q
        = Some (JSONText
                  [(lit "password", JString password);
                   (lit "login_ids", JArray entries);
                   (lit "metadata", optional_field options "metadata")])
        /\ req_body q'
           = Some (JSONText [(lit "login_ids", JArray entries)])).
Proof.
  assert (Hsingle : forall pairs : list (jsstring * JSValue),
            concat (map login_id_pairs (map (fun kv => [kv]) pairs))
            = map (fun kv => JObject [(lit "key", JString kv.1);
                                      (lit "value", kv.2)]) pairs).
  { induction pairs as [|[k v] pairs IH]; [done|].
    simpl. rewrite IH. unfold login_id_pairs. simpl.
    by rewrite jsstring_eqb_refl. }
  repeat apply conj.
  - intros obj. unfold_more. simpl. by rewrite app_nil_r.
  - intros obj Hnodup. unfold_more. cbv zeta.
    by rewrite Hsingle, login_id_pairs_unique.
  - intros pairs q q' Hq Hq' entries. unfold entries. split.
    + eapply post_payload_of_events; [|exact Hq].
      unfold_more. cbv zeta. rewrite events_bind_quiet by done.
      by rewrite Hsingle.
    + eapply post_payload_of_events; [|exact Hq'].
      unfold_operations. rewrite run_settle.
      rewrite (map_throwing_resolves _ (fun kv => [kv]) key_value); [done|].
      intros [k v]. by rewrite extractSingleKeyValue_single.
Qed.

(** X17.  [login], [signup], [logout] and [me] never send the
    authentication-session token, whether a session is held or not. *)
Theorem credentials_calls_omit_session_token
    σ loginID password options loginIDs :
  omits_session_token JSON_stringify _encodeBase64FromString caps
    (login loginID password options) σ
  /\ omits_session_token JSON_stringify _encodeBase64FromString caps
       (signup loginIDs password options) σ
  /\ omits_session_token JSON_stringify _encodeBase64FromString caps
       (logout JSON_stringify _encodeBase64FromString encodeQuery
          decodeError caps) σ
  /\ omits_session_token JSON_stringify _encodeBase64FromString caps
       (me JSON_stringify _encodeBase64FromString encodeQuery decodeError
          caps decodeAuthResponse) σ.
Proof.
  repeat apply conj;
    (eapply (omits_of_post JSON_stringify _encodeBase64FromString
               encodeQuery decodeError caps);
     [unfold_more; cbv zeta;
      rewrite events_bind_quiet by done; reflexivity
     |reflexivity]).
Qed.

(** *** The plain transport *)

(** X18.  The OIDC configuration is fetched outside of the pipeline: one GET to
    the well-known path under the auth endpoint, with no header at all
    (no API key, no authorization) and no body; no refresh is tried; and
    the parsed body is the result as it is, whatever the status and
    whether or not it looks like an envelope. *)
Theorem fetchOIDCConfiguration_is_plain σ transport cls :
  fetchFunction caps = Some transport ->
  requestClass caps = Some cls ->
  let q0 :=
    Request_new cls
      (authEndpoint (client σ) ++ lit "/.well-known/openid-configuration")
      None in
  _fetchOIDCConfiguration caps json_rejection σ
  = (match (transport q0 σ).1 with
     | Resolved resp =>
         match resp_json resp with
         | Some body => Resolved body
         | None => Rejected (json_rejection resp)
         end
     | Rejected e => Rejected e
     end, (transport q0 σ).2, [Exchange q0])
  /\ req_method q0 = GET /\ req_headers q0 = ∅ /\ req_body q0 = None.
Proof.
  intros Hf Hc q0. split; [|done].
  unfold_more. rewrite run_this, run_bind, Hf, Hc. unfold await.
  cbv zeta. fold q0. destruct (transport q0 σ) as [[resp|e] σ']; [|done].
  simpl. by destruct (resp_json resp).
Qed.

(** [_fetch] names the OIDC client in its errors and, like [fetch], looks
    for the transport first; neither error sends anything. *)
Lemma plain_fetch_unconfigured url init σ :
  (fetchFunction caps = None ->
   _fetch caps url init σ
   = (Rejected (Error (lit "missing fetchFunction in oidc api client")),
      σ, []))
  /\ (is_Some (fetchFunction caps) -> requestClass caps = None ->
      _fetch caps url init σ
      = (Rejected (Error (lit "missing requestClass in oidc api client")),
         σ, [])).
Proof.
  split.
  - intros Hf. unfold_more. by rewrite Hf.
  - intros [f Hf] Hc. unfold_more. by rewrite Hf, Hc.
Qed.

(** *** OAuth *)

Local Abbreviation oauthAuthorizationURL :=
  (oauthAuthorizationURL JSON_stringify _encodeBase64FromString encodeQuery
     decodeError caps encodeURIComponent window_location_href).

Lemma run_oauthAuthorizationURL options σ :
  oauthAuthorizationURL options σ
  = match encodeURIComponent (field options "providerID") with
    | Rejected e => (Rejected e, σ, [])
    | Resolved encoded =>
        match oauth_path encoded (field options "action") with
        | None => (Rejected (Error (lit "unreachable")), σ, [])
        | Some path =>
            match resolved_callback options
                    (window_location_href (world σ)) with
            | None => (Rejected (Error (lit "callbackURL is required")), σ, [])
            | Some callbackURL =>
                post path
                  (with_json
                     [(lit "callback_url", callbackURL);
                      (lit "ux_mode", field options "uxMode");
                      (lit "on_user_duplicate",
                       field options "onUserDuplicate");
                      (lit "code_challenge", field options "codeChallenge")])
                  σ
            end
        end
    end.
Proof.
  unfold_more. cbv zeta. rewrite run_settle.
  destruct (encodeURIComponent _) as [encoded|e]; [|done].
  rewrite run_settle. unfold oauth_path.
  destruct (field options "action") as [| | | |a| |]; try done.
  unfold resolved_callback.
  destruct (jsstring_eqb a (lit "login"));
    [|destruct (jsstring_eqb a (lit "link")); [|done]];
    rewrite run_bind; unfold window_href; rewrite after_nil;
    (destruct (get_own (lit "callbackURL") options) as [v|];
     [destruct (truthy v) eqn:Hv|]);
    (destruct (window_location_href (world σ)) as [h|];
     [destruct (jsstring_eqb h []) eqn:Hh|]);
    cbn [truthy negb]; rewrite ?Hv, ?Hh; cbn [truthy negb];
    rewrite ?Hv, ?Hh; done.
Qed.

(** X19.  [oauthAuthorizationURL] fails before anything is sent, leaving the
    state as it was: with the error of [encodeURIComponent] first, then
    for an action that is neither login nor link, then for a callback URL
    that neither the options nor the window provide. *)
Theorem oauthAuthorizationURL_fails_fast options σ :
  (forall e,
     encodeURIComponent (field options "providerID") = Rejected e ->
     oauthAuthorizationURL options σ = (Rejected e, σ, []))
  /\ (forall encoded,
        encodeURIComponent (field options "providerID") = Resolved encoded ->
        field options "action" <> JString (lit "login") ->
        field options "action" <> JString (lit "link") ->
        oauthAuthorizationURL options σ
        = (Rejected (Error (lit "unreachable")), σ, []))
  /\ (forall encoded,
        encodeURIComponent (field options "providerID") = Resolved encoded ->
        field options "action" = JString (lit "login")
        \/ field options "action" = JString (lit "link") ->
        (forall v, get_own (lit "callbackURL") options = Some v ->
                   truthy v = false) ->
        window_location_href (world σ) = None
        \/ window_location_href (world σ) = Some [] ->
        oauthAuthorizationURL options σ
        = (Rejected (Error (lit "callbackURL is required")), σ, [])).
Proof.
  repeat apply conj.
  - intros e He. by rewrite run_oauthAuthorizationURL, He.
  - intros encoded He Hlogin Hlink. rewrite run_oauthAuthorizationURL, He.
    unfold oauth_path.
    destruct (field options "action") as [| | | |a| |]; try done.
    unfold jsstring_eqb. rewrite !bool_decide_eq_false_2; [done|..];
      congruence.
  - intros encoded He Haction Hgiven Hwindow.
    rewrite run_oauthAuthorizationURL, He.
    assert (Hp : is_Some (oauth_path encoded (field options "action"))).
    { destruct Haction as [-> | ->];
        [rewrite oauth_path_login|rewrite oauth_path_link]; by eexists. }
    destruct Hp as [path ->]. unfold resolved_callback.
    destruct (get_own (lit "callbackURL") options) as [v|].
    + rewrite (Hgiven v eq_refl). by destruct Hwindow as [-> | ->].
    + by destruct Hwindow as [-> | ->].
Qed.

(** X20.  A truthy callback URL in the options is the one that is sent,
    whatever the window; the location of the window is sent only when
    the options give none or a falsy one.  The path is the one of the
    action, with the encoded provider in it. *)
Theorem oauthAuthorizationURL_callback options σ encoded which :
  encodeURIComponent (field options "providerID") = Resolved encoded ->
  (which = "login"%string /\ field options "action" = JString (lit "login"))
  \/ (which = "link"%string
      /\ field options "action" = JString (lit "link")) ->
  let payload callbackURL :=
    [(lit "callback_url", callbackURL);
     (lit "ux_mode", field options "uxMode");
     (lit "on_user_duplicate", field options "onUserDuplicate");
     (lit "code_challenge", field options "codeChallenge")] in
  let path :=
    lit "/_auth/sso/" ++ encoded ++ lit "/" ++ lit which
      ++ lit "_auth_url" in
  (forall v, get_own (lit "callbackURL") options = Some v ->
     truthy v = true ->
     oauthAuthorizationURL options σ = post path (with_json (payload v)) σ)
  /\ (forall h,
        (forall v, get_own (lit "callbackURL") options = Some v ->
                   truthy v = false) ->
        window_location_href (world σ) = Some h -> h <> [] ->
        oauthAuthorizationURL options σ
        = post path (with_json (payload (JString h))) σ).
Proof.
  intros He Hwhich payload path.
  assert (Hp : oauth_path encoded (field options "action") = Some path).
  { unfold path. destruct Hwhich as [[-> ->]|[-> ->]];
      [rewrite oauth_path_login|rewrite oauth_path_link];
      do 2 f_equal; by rewrite <- app_assoc. }
  split.
  - intros v Hv Htruthy.
    rewrite run_oauthAuthorizationURL, He, Hp. unfold resolved_callback.
    by rewrite Hv, Htruthy.
  - intros h Hgiven Hh Hne.
    rewrite run_oauthAuthorizationURL, He, Hp. unfold resolved_callback.
    rewrite Hh. unfold jsstring_eqb. rewrite bool_decide_eq_false_2 by done.
    destruct (get_own (lit "callbackURL") options) as [v|]; [|done].
    by rewrite (Hgiven v eq_refl).
Qed.

Lemma request_events method path options σ :
  events (request method path options σ)
  = events (fetch (request_path encodeQuery path options)
              (Some (request_init method options))
              (autoRefreshToken options) σ).
Proof. unfold_request. by rewrite events_bind_quiet. Qed.

(** X21.  [oauthHandler] is a GET without body: the code, the scope and the
    state travel in the query of the URL, in this order, behind the path
    with the encoded provider; no content type is declared.  When the
    provider cannot be encoded, that error is the outcome and nothing is
    sent. *)
Theorem oauthHandler_sends_a_query providerID code scope state σ :
  let run :=
    oauthHandler JSON_stringify _encodeBase64FromString encodeQuery
      decodeError caps encodeURIComponent providerID code scope state σ in
  match encodeURIComponent (JString providerID) with
  | Rejected e => run = (Rejected e, σ, [])
  | Resolved encoded =>
      forall q, In (Exchange q) (events run) ->
        req_method q = GET
        /\ req_body q = None
        /\ req_headers q !! lit "content-type" = None
        /\ req_url q
           = endpoint (client σ) ++ lit "/"
             ++ drop_leading_slash
                  (lit "/_auth/sso/" ++ encoded ++ lit "/auth_handler"
                   ++ encodeQuery [(lit "code", code); (lit "scope", scope);
                                   (lit "state", state)])
  end.
Proof.
  intros run. unfold run. unfold_more. cbv zeta. rewrite run_settle.
  destruct (encodeURIComponent _) as [encoded|e]; [|done].
  intros q Hq. unfold get in Hq. rewrite request_events in Hq.
  pose proof (fetch_exchange_request JSON_stringify _encodeBase64FromString
                caps _ _ _ _ _ Hq) as (Hurl & Hm & Hb).
  pose proof (fetch_exchange_headers _ _ _ _ _ Hq)
    as (_ & _ & _ & Hother).
  repeat apply conj; try done.
  - rewrite Hother by by vm_compute. apply lookup_empty.
  - rewrite Hurl. unfold fetch_url, request_path. simpl.
    by rewrite <- !app_assoc.
Qed.

(** *** Endpoints *)

Local Abbreviation setEndpoint := (@setEndpoint World).

(** The state with its client changed by [f]. *)
Local Abbreviation with_client f σ :=
  ({| client := f (client σ); world := world σ |}).

Lemma run_setEndpoint appEndpoint auth asset σ :
  let e := _removeTrailingSlash appEndpoint in
  setEndpoint appEndpoint auth asset σ
  = match given_or auth (_gearEndpoint e (lit "accounts")) with
    | Rejected err => (Rejected err, with_client (set_endpoint e) σ, [])
    | Resolved a =>
        match given_or asset (_gearEndpoint e (lit "assets")) with
        | Rejected err =>
            (Rejected err,
             with_client (fun c => set_authEndpoint a (set_endpoint e c)) σ,
             [])
        | Resolved b =>
            (Resolved tt,
             with_client
               (fun c =>
                  set_assetEndpoint b (set_authEndpoint a (set_endpoint e c)))
               σ, [])
        end
    end.
Proof.
  intros e. unfold_more. fold e.
  rewrite run_bind. unfold assign at 1. rewrite after_nil, run_this.
  rewrite run_settle. cbn [client endpoint set_endpoint].
  destruct (given_or auth _) as [a|err]; [|done].
  rewrite run_bind. unfold assign at 1. rewrite after_nil, run_this.
  rewrite run_settle.
  cbn [client endpoint set_endpoint set_authEndpoint].
  by destruct (given_or asset _) as [b|err].
Qed.

(** X22.  With no auth and asset endpoint given, [setEndpoint] derives both
    from the app endpoint without its trailing slashes: for an app
    endpoint that is a scheme prefix and a rest on one line, the accounts
    and the assets label are put before the host. *)
Theorem setEndpoint_derives_gear_endpoints appEndpoint σ p rest :
  In p endpoint_prefixes -> one_line rest ->
  _removeTrailingSlash appEndpoint = p ++ rest ->
  setEndpoint appEndpoint None None σ
  = (Resolved tt,
     with_client
       (fun c =>
          set_assetEndpoint (p ++ lit "assets." ++ rest)
            (set_authEndpoint (p ++ lit "accounts." ++ rest)
               (set_endpoint (p ++ rest) c))) σ, []).
Proof.
  intros Hp Hrest He. rewrite run_setEndpoint, He. cbn [given_or].
  rewrite (gearEndpoint_derived p rest (lit "accounts"))
    by (done || apply no_dollar_gears).
  rewrite (gearEndpoint_derived p rest (lit "assets"))
    by (done || apply no_dollar_gears).
  reflexivity.
Qed.

(** X23.  When the app endpoint cannot be derived from, [setEndpoint] rejects
    with the invalid-app-endpoint error half way: the endpoint has been
    overwritten already, and so has the auth endpoint when that one was
    given; the fields after the failing one keep their old values. *)
Theorem setEndpoint_rejects_half_way appEndpoint auth asset σ :
  let e := _removeTrailingSlash appEndpoint in
  (forall p rest, In p endpoint_prefixes -> e = p ++ rest -> ~ one_line rest) ->
  (auth = None \/ auth = Some [] ->
   setEndpoint appEndpoint auth asset σ
   = (Rejected (Error (lit "invalid app endpoint")),
      with_client (set_endpoint e) σ, []))
  /\ (forall a, auth = Some a -> a <> [] ->
        asset = None \/ asset = Some [] ->
        setEndpoint appEndpoint auth asset σ
        = (Rejected (Error (lit "invalid app endpoint")),
           with_client (fun c => set_authEndpoint a (set_endpoint e c)) σ,
           [])).
Proof.
  intros e Hbad. split.
  - intros Hauth. rewrite run_setEndpoint. fold e.
    assert (Hg : given_or auth (_gearEndpoint e (lit "accounts"))
                 = Rejected (Error (lit "invalid app endpoint"))).
    { rewrite gearEndpoint_rejects by done.
      by destruct Hauth as [-> | ->]. }
    by rewrite Hg.
  - intros a -> Ha Hasset. rewrite run_setEndpoint. fold e.
    assert (Ha' : given_or (Some a) (_gearEndpoint e (lit "accounts"))
                  = Resolved a).
    { cbn [given_or truthy]. unfold jsstring_eqb.
      by rewrite bool_decide_eq_false_2. }
    rewrite Ha'.
    assert (Hg : given_or asset (_gearEndpoint e (lit "assets"))
                 = Rejected (Error (lit "invalid app endpoint"))).
    { rewrite gearEndpoint_rejects by done.
      by destruct Hasset as [-> | ->]. }
    by rewrite Hg.
Qed.

(** X24.  With both the auth and the asset endpoint given and not empty,
    [setEndpoint] takes any app endpoint: it never rejects, and the three
    fields are the app endpoint without trailing slashes and the two
    endpoints as given. *)
Theorem setEndpoint_takes_given_endpoints appEndpoint a b σ :
  a <> [] -> b <> [] ->
  setEndpoint appEndpoint (Some a) (Some b) σ
  = (Resolved tt,
     with_client
       (fun c =>
          set_assetEndpoint b
            (set_authEndpoint a
               (set_endpoint (_removeTrailingSlash appEndpoint) c))) σ, []).
Proof.
  intros Ha Hb. rewrite run_setEndpoint. cbn [given_or truthy].
  unfold jsstring_eqb. by rewrite !bool_decide_eq_false_2.
Qed.

(** X25.  After [setEndpoint], whether it resolved or not, the exchanges of a
    [fetch] go to the app endpoint without its trailing slashes, one
    slash, and the input without one leading slash: the URL has a single
    slash at the joint when the input has at most one in front. *)
Theorem fetch_url_after_setEndpoint
    appEndpoint auth asset σ o σ' t input init option q :
  setEndpoint appEndpoint auth asset σ = (o, σ', t) ->
  In (Exchange q) (events (fetch input init option σ')) ->
  req_url q
  = _removeTrailingSlash appEndpoint ++ lit "/" ++ drop_leading_slash input
  /\ (forall r, _removeTrailingSlash appEndpoint <> r ++ lit "/").
Proof.
  intros Hset Hq.
  apply (fetch_exchange_request JSON_stringify _encodeBase64FromString)
    in Hq as (-> & _ & _).
  assert (He : endpoint (client σ') = _removeTrailingSlash appEndpoint).
  { rewrite run_setEndpoint in Hset.
    destruct (given_or auth _); [destruct (given_or asset _)|];
      by injection Hset as _ <- _. }
  unfold fetch_url. rewrite He. split; [done|].
  apply removeTrailingSlash_no_trailing.
Qed.
End FurtherPipelineProperties.

(** ** The further properties at work on the test doubles *)

Lemma fetch_single_exchange_witness :
  let caps :=
    capabilities always_fresh
      (Some (refresh_storing (Some (lit "tok2")) true)) None in
  let run :=
    fetch stringify base64 caps (lit "/_auth/me") None None
      (start configured) in
  outcome run = Resolved fresh_response
  /\ exchanges (events run) = 1%nat /\ refreshes (events run) = 0%nat.
Proof.
  intros caps run.
  assert (Hrun := fetch_single_exchange stringify base64 caps
                    (lit "/_auth/me") None None (start configured)
                    always_fresh PlatformRequest _ _ fresh_response _
                    eq_refl eq_refl eq_refl eq_refl (or_introl eq_refl)).
  fold run in Hrun. by rewrite Hrun.
Defined.

Lemma fetch_without_refresh_capability_witness :
  let caps := capabilities always_stale None None in
  outcome (fetch stringify base64 caps (lit "/_auth/me") None None
             (start configured)) = Resolved stale_response
  /\ fetch stringify base64 caps (lit "/_auth/me") None (Some true)
       (start configured)
     = (Rejected (Error (lit "missing refreshTokenFunction in api client")),
        served (start configured),
        events (fetch stringify base64 caps (lit "/_auth/me") None None
                  (start configured))).
Proof.
  intros caps.
  assert (Hdefault := fetch_without_refresh_capability stringify base64 caps
                        (lit "/_auth/me") None None (start configured)
                        always_stale PlatformRequest _ _ stale_response _
                        eq_refl eq_refl eq_refl eq_refl eq_refl eq_refl).
  assert (Hasked := fetch_without_refresh_capability stringify base64 caps
                      (lit "/_auth/me") None (Some true) (start configured)
                      always_stale PlatformRequest _ _ stale_response _
                      eq_refl eq_refl eq_refl eq_refl eq_refl eq_refl).
  rewrite Hdefault, Hasked. done.
Defined.

Lemma fetch_hands_on_rejections_witness :
  let caps := capabilities always_stale (Some failing_refresh) None in
  let run :=
    fetch stringify base64 caps (lit "/_auth/me") None None
      (start configured) in
  outcome run = Rejected (Error (lit "refresh failed"))
  /\ exchanges (events run) = 1%nat /\ refreshes (events run) = 1%nat.
Proof.
  intros caps run.
  destruct (fetch_hands_on_rejections stringify base64 caps
              (lit "/_auth/me") None None (start configured)
              always_stale PlatformRequest eq_refl eq_refl)
    as (_ & _ & Hrefresh).
  assert (Hrun := Hrefresh _ _ stale_response _ failing_refresh _ _
                    eq_refl eq_refl eq_refl eq_refl eq_refl eq_refl).
  fold run in Hrun. by rewrite Hrun.
Defined.

Lemma request_unconfigured_witness :
  request stringify base64 encode_query decode_error unconfigured POST
    (lit "/_auth/me") (with_json []) (start configured)
  = (Rejected (Error (lit "missing fetchFunction in api client")),
     start configured, []).
Proof.
  apply (request_unconfigured stringify base64 encode_query decode_error
           unconfigured POST (lit "/_auth/me") (with_json [])
           (start configured)).
  reflexivity.
Defined.

Lemma pipeline_keeps_invariants_witness :
  let caps := capabilities always_fresh None None in
  _accessToken
    (client (final (login stringify base64 encode_query decode_error caps
                      decode_value (lit "a@b.com") (lit "pw") None
                      (start configured))))
  = Some (lit "tok1").
Proof.
  intros caps.
  destruct (pipeline_keeps_invariants stringify base64 encode_query
              decode_error decode_value caps
              (fun s => client s = configured))
    as (_ & _ & Hlogin & _).
  - repeat apply conj.
    + intros f [= <-] q s Hs. exact Hs.
    + intros f [=].
    + intros f [=].
  - by rewrite (Hlogin (lit "a@b.com") (lit "pw") None (start configured)).
Defined.

Lemma fetch_replays_the_request_witness :
  let caps :=
    capabilities stale_once
      (Some (refresh_storing (Some (lit "tok2")) true)) None in
  let options := with_json [(lit "otp", JString (lit "123456"))] in
  exists q1 q2,
    events (fetch stringify base64 caps (lit "/_auth/mfa/totp/activate")
              (Some (request_init POST options)) None (start configured))
    = [Exchange q1; RefreshCall; Exchange q2]
    /\ req_url q1 = req_url q2 /\ req_method q1 = req_method q2
    /\ req_body q1 = req_body q2
    /\ req_body q2
       = Some (JSONText [(lit "otp", JString (lit "123456"))]).
Proof.
  intros caps options.
  assert (Hev : exists q1 q2,
            events (fetch stringify base64 caps
                      (lit "/_auth/mfa/totp/activate")
                      (Some (request_init POST options)) None
                      (start configured))
            = [Exchange q1; RefreshCall; Exchange q2]
            /\ req_body q2
               = Some (JSONText [(lit "otp", JString (lit "123456"))])).
  { eexists _, _. split; vm_compute; reflexivity. }
  destruct Hev as (q1 & q2 & Hev & Hbody). exists q1, q2.
  split; [done|].
  destruct (fetch_replays_the_request stringify base64 caps
              (lit "/_auth/mfa/totp/activate")
              (Some (request_init POST options)) None (start configured)
              q1 q2) as (Hurl & Hmethod & Hb).
  - rewrite Hev. by left.
  - rewrite Hev. right. right. by left.
  - done.
Defined.

Lemma retry_keeps_headers_witness :
  let caps :=
    capabilities always_stale
      (Some (refresh_storing (Some (lit "tok2")) true)) None in
  let options := with_json [(lit "otp", JString (lit "123456"))] in
  exists q1 q2,
    events (fetch stringify base64 caps (lit "/_auth/mfa/totp/activate")
              (Some (request_init POST options)) None (start configured))
    = [Exchange q1; RefreshCall; Exchange q2]
    /\ req_headers q1 !! lit "authorization" = Some (lit "bearer tok1")
    /\ req_headers q2 !! lit "authorization" = Some (lit "bearer tok2")
    /\ req_headers q2 !! lit "content-type"
       = Some (lit "application/json")
    /\ req_headers q2 !! lit "x-skygear-api-key"
       = req_headers q1 !! lit "x-skygear-api-key".
Proof.
  intros caps options.
  edestruct (retry_keeps_headers stringify base64 caps
               (lit "/_auth/mfa/totp/activate")
               (Some (request_init POST options)) None (start configured))
    as (q2 & Hev & _ & Hinit & Hkey & Hauth & _).
  - reflexivity.
  - reflexivity.
  - reflexivity.
  - reflexivity.
  - reflexivity.
  - reflexivity.
  - vm_compute. reflexivity.
  - reflexivity.
  - reflexivity.
  - eexists _, q2. split; [exact Hev|].
    repeat apply conj.
    + vm_compute. reflexivity.
    + etrans; [exact Hauth|]. vm_compute. reflexivity.
    + etrans; [apply Hinit; by vm_compute|]. vm_compute. reflexivity.
    + etrans; [exact Hkey|]. vm_compute. reflexivity.
Defined.

Lemma request_exchanges_witness :
  let caps := capabilities always_fresh None None in
  exists q,
    events (request stringify base64 encode_query decode_error caps POST
              (lit "/_auth/me") (with_json []) (start configured))
    = [Exchange q]
    /\ req_headers q !! lit "content-type" = Some (lit "application/json")
    /\ req_credentials q = lit "include".
Proof.
  intros caps.
  assert (Hev : exists q,
            events (request stringify base64 encode_query decode_error caps
                      POST (lit "/_auth/me") (with_json [])
                      (start configured)) = [Exchange q]).
  { eexists. vm_compute. reflexivity. }
  destruct Hev as (q & Hev). exists q. split; [done|].
  destruct (request_exchanges stringify base64 encode_query decode_error
              caps POST (lit "/_auth/me") (with_json []) (start configured) q)
    as (_ & _ & Hcred & _ & _ & Hct).
  - rewrite Hev. by left.
  - done.
Defined.

Lemma request_resolves_to_truthy_witness :
  let caps := capabilities always_fresh None None in
  exists v,
    outcome (request stringify base64 encode_query decode_error caps POST
               (lit "/_auth/me") (with_json []) (start configured))
    = Resolved v
    /\ truthy v = true.
Proof.
  intros caps.
  assert (Hrun : exists v,
            outcome (request stringify base64 encode_query decode_error caps
                       POST (lit "/_auth/me") (with_json [])
                       (start configured)) = Resolved v).
  { eexists. vm_compute. reflexivity. }
  destruct Hrun as [v Hrun]. exists v. split; [done|].
  exact (request_resolves_to_truthy stringify base64 encode_query
           decode_error caps POST (lit "/_auth/me") (with_json [])
           (start configured) v Hrun).
Defined.

Lemma request_body_not_an_object_witness :
  let caps := capabilities (answering null_response) None None in
  exists message,
    outcome (request stringify base64 encode_query decode_error caps POST
               (lit "/_auth/me") (with_json []) (start configured))
    = Rejected (TypeError message).
Proof.
  intros caps.
  assert (Hfetch : exists σ' t,
            fetch stringify base64 caps
              (request_path encode_query (lit "/_auth/me") (with_json []))
              (Some (request_init POST (with_json [])))
              (autoRefreshToken (with_json [])) (start configured)
            = (Resolved null_response, σ', t)).
  { eexists _, _. vm_compute. reflexivity. }
  destruct Hfetch as (σ' & t & Hfetch).
  destruct (request_body_not_an_object stringify base64 encode_query
              decode_error caps POST (lit "/_auth/me") (with_json [])
              (start configured) null_response σ' t JNull Hfetch eq_refl)
    as [message Hrun].
  exists message. by rewrite Hrun.
Defined.

Lemma getAuthenticators_decodes_all_or_nothing_witness :
  let caps := capabilities (answering authenticators_response) None None in
  exists ys,
    outcome (getAuthenticators stringify base64 encode_query decode_error
               caps decode_string (start configured)) = Resolved ys
    /\ Forall2 (fun x y => decode_string x = Resolved y)
         [JString (lit "a1"); JString (lit "a2")] ys.
Proof.
  intros caps.
  pose (listed :=
          JObject [(lit "authenticators",
                    JArray [JString (lit "a1"); JString (lit "a2")])]).
  assert (Hpost : exists σ' t,
            post stringify base64 encode_query decode_error caps
              (lit "/_auth/mfa/authenticator/list")
              (with_json
                 (makePayloadWithAuthenticationSessionToken
                    (client (start configured)) []))
              (start configured)
            = (Resolved listed, σ', t)).
  { eexists _, _. vm_compute. reflexivity. }
  destruct Hpost as (σ' & t & Hpost).
  assert (Hrun : exists ys,
            outcome (getAuthenticators stringify base64 encode_query
                       decode_error caps decode_string (start configured))
            = Resolved ys).
  { eexists. vm_compute. reflexivity. }
  destruct Hrun as [ys Hrun]. exists ys. split; [done|].
  destruct (getAuthenticators_decodes_all_or_nothing stringify base64
              encode_query decode_error decode_string caps
              (start configured) listed σ' t Hpost)
    as (_ & _ & Hdecode).
  exact (proj1 Hdecode ys Hrun).
Defined.

Lemma login_id_errors_witness :
  let caps := capabilities always_fresh None None in
  updateLoginID stringify base64 encode_query decode_error caps
    decode_value [] [] (start configured)
  = (Rejected (Error (lit "must provide exactly one old login ID")),
     start configured, [])
  /\ updateLoginID stringify base64 encode_query decode_error caps
       decode_value [(lit "email", JString (lit "a@b.com"))] []
       (start configured)
     = (Rejected (Error (lit "must provide exactly one new login ID")),
        start configured, []).
Proof.
  intros caps. split.
  - apply (login_id_errors stringify base64 encode_query decode_error
             decode_value caps (start configured) [] []).
    simpl. lia.
  - apply (login_id_errors stringify base64 encode_query decode_error
             decode_value caps (start configured)
             [(lit "email", JString (lit "a@b.com"))] []).
    + reflexivity.
    + simpl. lia.
Defined.

Lemma signup_flattens_login_ids_witness :
  let caps := capabilities always_fresh None None in
  let both := [(lit "email", JString (lit "a@b.com"));
               (lit "username", JString (lit "a"))] in
  let run :=
    signup stringify base64 encode_query decode_error caps decode_value
      (inr both) (lit "pw") None (start configured) in
  run
  = signup stringify base64 encode_query decode_error caps decode_value
      (inl [[(lit "email", JString (lit "a@b.com"))];
            [(lit "username", JString (lit "a"))]])
      (lit "pw") None (start configured)
  /\ exists q,
       events run = [Exchange q]
       /\ req_body q
          = Some (JSONText
                    [(lit "password", JString (lit "pw"));
                     (lit "login_ids",
                      JArray
                        [JObject [(lit "key", JString (lit "email"));
                                  (lit "value", JString (lit "a@b.com"))];
                         JObject [(lit "key", JString (lit "username"));
                                  (lit "value", JString (lit "a"))]]);
                     (lit "metadata", JUndefined)]).
Proof.
  intros caps both run.
  destruct (signup_flattens_login_ids stringify base64 encode_query
              decode_error decode_value caps (start configured) (lit "pw")
              None) as (_ & Hsplit & Hsent).
  assert (Hflat : run
                  = signup stringify base64 encode_query decode_error caps
                      decode_value (inl (map (fun kv => [kv]) both))
                      (lit "pw") None (start configured)).
  { apply (Hsplit both).
    unfold both, Object_keys. simpl.
    apply NoDup_cons. split; [|apply NoDup_singleton].
    intros Hin. apply list_elem_of_singleton in Hin. vm_compute in Hin.
    discriminate. }
  split; [exact Hflat|].
  assert (Hev : exists q q',
            events run = [Exchange q]
            /\ events (addLoginID stringify base64 encode_query decode_error
                         caps (map (fun kv => [kv]) both) (start configured))
               = [Exchange q']).
  { eexists _, _. split; vm_compute; reflexivity. }
  destruct Hev as (q & q' & Hq & Hq'). exists q. split; [exact Hq|].
  destruct (Hsent both q q') as [Hbody _].
  - rewrite <- Hflat, Hq. by left.
  - rewrite Hq'. by left.
  - rewrite Hbody. reflexivity.
Defined.

Lemma credentials_calls_omit_session_token_witness :
  let caps := capabilities always_fresh None None in
  let σ := start (with_session (Some {| token := lit "sess1" |}) configured) in
  exists q payload,
    events (login stringify base64 encode_query decode_error caps
              decode_value (lit "a@b.com") (lit "pw") None σ) = [Exchange q]
    /\ req_body q = Some (JSONText payload)
    /\ get_own (lit "authn_session_token") payload = None.
Proof.
  intros caps σ.
  destruct (credentials_calls_omit_session_token stringify base64
              encode_query decode_error decode_value caps σ
              (lit "a@b.com") (lit "pw") None (inl []))
    as ([Hsent _] & _).
  assert (Hev : exists q,
            events (login stringify base64 encode_query decode_error caps
                      decode_value (lit "a@b.com") (lit "pw") None σ)
            = [Exchange q]).
  { eexists. vm_compute. reflexivity. }
  destruct Hev as (q & Hev).
  destruct (Hsent q) as (payload & Hpayload & Htoken).
  { rewrite Hev. by left. }
  by exists q, payload.
Defined.

Lemma fetchOIDCConfiguration_is_plain_witness :
  let caps := capabilities always_stale None None in
  outcome (_fetchOIDCConfiguration caps syntax_error (start configured))
  = Resolved
      (JObject
         [(lit "error",
           JObject [(lit "name", JString (lit "NotAuthenticated"))])]).
Proof.
  intros caps.
  destruct (fetchOIDCConfiguration_is_plain syntax_error caps
              (start configured) always_stale PlatformRequest
              eq_refl eq_refl) as [Hrun _].
  by rewrite Hrun.
Defined.

Lemma oauthAuthorizationURL_fails_fast_witness :
  let caps := capabilities always_fresh None None in
  let options := [(lit "providerID", JString (lit "google"));
                  (lit "action", JString (lit "login"))] in
  oauthAuthorizationURL stringify base64 encode_query decode_error caps
    encode_component no_window options (start configured)
  = (Rejected (Error (lit "callbackURL is required")), start configured, []).
Proof.
  intros caps options.
  destruct (oauthAuthorizationURL_fails_fast stringify base64 encode_query
              decode_error encode_component no_window caps options
              (start configured)) as (_ & _ & Hcallback).
  apply (Hcallback (lit "google")).
  - reflexivity.
  - by left.
  - intros v Hv. vm_compute in Hv. discriminate.
  - by left.
Defined.

Lemma oauthAuthorizationURL_callback_witness :
  let caps := capabilities always_fresh None None in
  let options := [(lit "providerID", JString (lit "google"));
                  (lit "action", JString (lit "link"));
                  (lit "callbackURL", JString (lit "https://app/cb"))] in
  oauthAuthorizationURL stringify base64 encode_query decode_error caps
    encode_component (window_at (lit "https://app/here")) options
    (start configured)
  = post stringify base64 encode_query decode_error caps
      (lit "/_auth/sso/google/link_auth_url")
      (with_json
         [(lit "callback_url", JString (lit "https://app/cb"));
          (lit "ux_mode", JUndefined);
          (lit "on_user_duplicate", JUndefined);
          (lit "code_challenge", JUndefined)])
      (start configured).
Proof.
  intros caps options.
  destruct (oauthAuthorizationURL_callback stringify base64 encode_query
              decode_error encode_component
              (window_at (lit "https://app/here")) caps options
              (start configured) (lit "google") "link")
    as [Hgiven _].
  - reflexivity.
  - right. by split.
  - apply (Hgiven (JString (lit "https://app/cb"))); reflexivity.
Defined.

Lemma oauthHandler_sends_a_query_witness :
  let caps := capabilities always_fresh None None in
  exists q,
    events (oauthHandler stringify base64 query_string decode_error caps
              encode_component (lit "google") (lit "c1") (lit "email")
              (lit "s1") (start configured)) = [Exchange q]
    /\ req_body q = None
    /\ req_url q
       = lit "https://api.example.com/_auth/sso/google/auth_handler?code=c1&scope=email&state=s1&".
Proof.
  intros caps.
  assert (Hev : exists q,
            events (oauthHandler stringify base64 query_string decode_error
                      caps encode_component (lit "google") (lit "c1")
                      (lit "email") (lit "s1") (start configured))
            = [Exchange q]).
  { eexists. vm_compute. reflexivity. }
  destruct Hev as (q & Hev). exists q. split; [done|].
  destruct (oauthHandler_sends_a_query stringify base64 query_string
              decode_error encode_component caps (lit "google") (lit "c1")
              (lit "email") (lit "s1") (start configured) q)
    as (_ & Hbody & _ & Hurl).
  - rewrite Hev. by left.
  - split; [done|]. rewrite Hurl. reflexivity.
Defined.

Lemma setEndpoint_derives_gear_endpoints_witness :
  let σ' :=
    final (setEndpoint (lit "https://myapp.skygearapis.com/") None None
             (start new_client)) in
  endpoint (client σ') = lit "https://myapp.skygearapis.com"
  /\ authEndpoint (client σ') = lit "https://accounts.myapp.skygearapis.com"
  /\ assetEndpoint (client σ') = lit "https://assets.myapp.skygearapis.com".
Proof.
  intros σ'. unfold σ'.
  rewrite (setEndpoint_derives_gear_endpoints
             (lit "https://myapp.skygearapis.com/") (start new_client)
             (lit "https://") (lit "myapp.skygearapis.com")).
  - done.
  - right. by left.
  - reflexivity.
  - reflexivity.
Defined.

Lemma setEndpoint_rejects_half_way_witness :
  let run := setEndpoint (lit "localhost:3000/") None None
               (start configured) in
  outcome run = Rejected (Error (lit "invalid app endpoint"))
  /\ endpoint (client (final run)) = lit "localhost:3000"
  /\ authEndpoint (client (final run)) = authEndpoint configured.
Proof.
  intros run.
  destruct (setEndpoint_rejects_half_way (lit "localhost:3000/") None None
              (start configured)) as [Hrun _].
  - intros p rest [<-|[<-|[<-|[]]]] Heq; vm_compute in Heq; discriminate.
  - assert (H := Hrun (or_introl eq_refl)).
    split_and!.
    + exact (f_equal outcome H).
    + exact (f_equal (fun r => endpoint (client (final r))) H).
    + exact (f_equal (fun r => authEndpoint (client (final r))) H).
Defined.

Lemma setEndpoint_takes_given_endpoints_witness :
  outcome (setEndpoint (lit "localhost:3000") (Some (lit "http://auth"))
             (Some (lit "http://asset")) (start configured))
  = Resolved tt.
Proof.
  assert (H : lit "http://auth" <> [] /\ lit "http://asset" <> [])
    by done.
  destruct H as [Hauth Hasset].
  exact (f_equal outcome
           (setEndpoint_takes_given_endpoints (lit "localhost:3000")
              (lit "http://auth") (lit "http://asset") (start configured)
              Hauth Hasset)).
Defined.

Lemma fetch_url_after_setEndpoint_witness :
  let caps := capabilities always_fresh None None in
  exists σ' q,
    final (setEndpoint (lit "https://api.example.com//") None None
             (start configured)) = σ'
    /\ events (fetch stringify base64 caps (lit "/_auth/me") None None σ')
       = [Exchange q]
    /\ req_url q = lit "https://api.example.com/_auth/me".
Proof.
  intros caps.
  assert (Hev : exists σ' q,
            setEndpoint (lit "https://api.example.com//") None None
              (start configured) = (Resolved tt, σ', [])
            /\ events (fetch stringify base64 caps (lit "/_auth/me") None
                         None σ') = [Exchange q]).
  { eexists _, _. split; vm_compute; reflexivity. }
  destruct Hev as (σ' & q & Hset & Hev). exists σ', q.
  split; [by rewrite Hset|]. split; [done|].
  destruct (fetch_url_after_setEndpoint stringify base64 caps
              (lit "https://api.example.com//") None None (start configured)
              _ σ' _ (lit "/_auth/me") None None q Hset) as [Hurl _].
  - rewrite Hev. by left.
  - rewrite Hurl. reflexivity.
Defined.
